(** * compile-workload: a shallow embedding of [workload.py]

    The script clones a project into an empty directory, walks the
    directory, builds the project, walks the directory again, appends one
    CSV row to a results file, removes the clone and prints the record.

    The embedding keeps the script's structure: the helpers [timeit],
    [withcwd], [statdir], [clone], [build] and the driver [run_workload]
    are written in a state-and-exception monad over a [world] holding the
    file system, the working directory of the process, the number of clock
    readings taken so far and the log of externally visible actions.
    What lies outside the script (the clock, the programs it launches, the
    size the file system reports for a directory, the failure of a write)
    is a [host]. *)

From Stdlib Require Import List String Ascii ZArith Lia Bool DecimalString.
Import ListNotations.
Open Scope string_scope.
Open Scope Z_scope.

Set Warnings "-register-all".

(** ** File system *)

(** A directory entry is a regular file with its bytes, a directory with
    its named entries, a symbolic link whose target lies in a missing
    directory (such a link can be neither stat-ed nor opened), a symbolic
    link kept with the entry it resolves to, or a special file (FIFO,
    socket, device) with the size that stat reports for it. *)
Inductive node : Type :=
| File (content : string)
| Dir (entries : list (string * node))
| Dangling
| Link (target : node)
| Special (size : N).

(** Paths are kept in parsed form: absolute or relative to the working
    directory, as a list of components. *)
Inductive path : Type :=
| Abs (comps : list string)
| Rel (comps : list string).

Definition join (p : path) (name : string) : path :=
  match p with
  | Abs c => Abs (c ++ [name])
  | Rel c => Rel (c ++ [name])
  end.

Definition resolve (cwd : list string) (p : path) : list string :=
  match p with
  | Abs c => c
  | Rel c => cwd ++ c
  end.

Definition path_str (p : path) : string :=
  match p with
  | Abs c => "/" ++ String.concat "/" c
  | Rel c => String.concat "/" c
  end.

Fixpoint find_entry (name : string) (es : list (string * node)) : option node :=
  match es with
  | [] => None
  | (k, c) :: rest => if String.eqb k name then Some c else find_entry name rest
  end.

Fixpoint set_entry (name : string) (c : node) (es : list (string * node))
  : list (string * node) :=
  match es with
  | [] => [(name, c)]
  | (k, d) :: rest =>
      if String.eqb k name then (k, c) :: rest
      else (k, d) :: set_entry name c rest
  end.

Fixpoint remove_entry (name : string) (es : list (string * node))
  : list (string * node) :=
  match es with
  | [] => []
  | (k, d) :: rest =>
      if String.eqb k name then remove_entry name rest
      else (k, d) :: remove_entry name rest
  end.

(** What stat sees of an entry: symbolic links are followed. *)
Fixpoint follow (n : node) : node :=
  match n with
  | Link t => follow t
  | _ => n
  end.

(** [n] with what it resolves to replaced by [d]. *)
Fixpoint rewrap (n d : node) : node :=
  match n with
  | Link t => Link (rewrap t d)
  | _ => d
  end.

(** The entry that a path names; the links met before its last component
    are followed. *)
Fixpoint lookup (n : node) (p : list string) : option node :=
  match p with
  | [] => Some n
  | x :: q =>
      match follow n with
      | Dir es =>
          match find_entry x es with
          | Some c => lookup c q
          | None => None
          end
      | _ => None
      end
  end.

(** [write_at n p c] puts [c] at [p], creating the last component when its
    parent directory exists; [None] when the parent is not a directory. *)
Fixpoint write_at (n : node) (p : list string) (c : node) : option node :=
  match p with
  | [] => Some c
  | x :: q =>
      match follow n with
      | Dir es =>
          match q with
          | [] => Some (rewrap n (Dir (set_entry x c es)))
          | _ :: _ =>
              match find_entry x es with
              | Some d =>
                  match write_at d q c with
                  | Some d' => Some (rewrap n (Dir (set_entry x d' es)))
                  | None => None
                  end
              | None => None
              end
          end
      | _ => None
      end
  end.

(** [remove_at n p] unlinks the entry at [p] with everything below it;
    [None] when there is no such entry. *)
Fixpoint remove_at (n : node) (p : list string) : option node :=
  match p with
  | [] => None
  | x :: q =>
      match follow n with
      | Dir es =>
          match find_entry x es with
          | Some d =>
              match q with
              | [] => Some (rewrap n (Dir (remove_entry x es)))
              | _ :: _ =>
                  match remove_at d q with
                  | Some d' => Some (rewrap n (Dir (set_entry x d' es)))
                  | None => None
                  end
              end
          | None => None
          end
      | _ => None
      end
  end.

Definition is_dir_node (n : node) : bool :=
  match n with Dir _ => true | _ => false end.

(** Names that a scan of a directory reports as directories (directories
    and links to directories), and the others (regular files, special
    files, links that do not lead to a directory). *)
Definition dirnames (es : list (string * node)) : list string :=
  map fst (filter (fun e => is_dir_node (follow (snd e))) es).

Definition filenames (es : list (string * node)) : list string :=
  map fst (filter (fun e => negb (is_dir_node (follow (snd e)))) es).




(** ** Values, records and events *)

Inductive value : Type :=
| VStr (s : string)
| VNum (z : Z).

(** A Python dict: keys in insertion order. *)
Definition dict : Type := list (string * value).

Fixpoint dict_get (d : dict) (k : string) : option value :=
  match d with
  | [] => None
  | (k', v) :: r => if String.eqb k' k then Some v else dict_get r k
  end.

Fixpoint dict_set (d : dict) (k : string) (v : value) : dict :=
  match d with
  | [] => [(k, v)]
  | (k', v') :: r =>
      if String.eqb k' k then (k', v) :: r else (k', v') :: dict_set r k v
  end.

(** The exceptions met: three classes under [Exception], and
    [KeyboardInterrupt], which is not under it. *)
Inductive exn : Type :=
| TypeError (msg : string)
| ValueError (msg : string)
| OSError (msg : string)
| KeyboardInterrupt.

Inductive result (A : Type) : Type :=
| Ok (a : A)
| Err (e : exn).
Arguments Ok {A} a.
Arguments Err {A} e.

(** What the process does to the outside: reading the clock (the index of
    the reading), launching a program (with the working directory it
    inherits), removing a tree, printing a record. *)
Inductive event : Type :=
| EvTime (reading : nat)
| EvCall (cmd : list string) (at_cwd : list string)
| EvRmtree (target : list string)
| EvPrint (doc : dict).

Record world : Type := mkWorld {
  fs : node;
  cwd : list string;
  ticks : nat;
  trace : list event
}.

(** The environment of the script: the successive readings of the wall
    clock, what a launched program does to the file system together with
    its exit status (or the exception that ends the call), the size
    reported for a directory, and the error, if any, with which the write
    of a text to an open file fails. *)
Record host : Type := mkHost {
  clock : nat -> Z;
  spawn : list string -> world -> result (node * Z);
  st_size_dir : Z;
  write_error : list string -> string -> world -> option exn
}.

(** ** The monad of the script *)

Definition M (A : Type) : Type := world -> result A * world.

Definition ret {A} (a : A) : M A := fun w => (Ok a, w).

Definition raise {A} (e : exn) : M A := fun w => (Err e, w).

Definition bind {A B} (m : M A) (f : A -> M B) : M B :=
  fun w =>
    match m w with
    | (Ok a, w1) => f a w1
    | (Err e, w1) => (Err e, w1)
    end.

Definition gets {A} (f : world -> A) : M A := fun w => (Ok (f w), w).

(** [try: m finally: f]: [f] runs in every case; its own exception, if
    any, replaces the outcome of [m]. *)
Definition try_finally {A} (m : M A) (f : M unit) : M A :=
  fun w =>
    let '(r, w1) := m w in
    match f w1 with
    | (Ok _, w2) => (r, w2)
    | (Err e, w2) => (Err e, w2)
    end.

Declare Scope monad_scope.
Delimit Scope monad_scope with monad.
Notation "x <- m ;; k" := (bind m (fun x => k))
  (at level 61, m at next level, right associativity) : monad_scope.
Notation "' p <- m ;; k" := (bind m (fun x => match x with p => k end))
  (at level 61, p pattern, m at next level, right associativity) : monad_scope.
Notation "m ;;; k" := (bind m (fun _ => k))
  (at level 61, right associativity) : monad_scope.
Open Scope monad_scope.

Fixpoint for_each {A} (f : A -> M unit) (l : list A) : M unit :=
  match l with
  | [] => ret tt
  | a :: r => f a ;;; for_each f r
  end.

(** [sum(f(x) for x in l)] *)
Fixpoint sum_of {A} (f : A -> M Z) (l : list A) : M Z :=
  match l with
  | [] => ret 0
  | a :: r => x <- f a ;; s <- sum_of f r ;; ret (x + s)
  end.

(** ** Operating-system primitives *)

Definition log (e : event) (w : world) : world :=
  mkWorld (fs w) (cwd w) (ticks w) (trace w ++ [e]).

Definition set_fs (f : node) (w : world) : world :=
  mkWorld f (cwd w) (ticks w) (trace w).

Definition set_cwd (d : list string) (w : world) : world :=
  mkWorld (fs w) d (ticks w) (trace w).

(** What stat reports for a path: the entry it names, links followed. *)
Definition stat_of (w : world) (p : path) : option node :=
  option_map follow (lookup (fs w) (resolve (cwd w) p)).

Definition os_path_exists (w : world) (p : path) : bool :=
  match stat_of w p with
  | Some (File _) | Some (Dir _) | Some (Special _) => true
  | _ => false
  end.

Definition os_path_isdir (w : world) (p : path) : bool :=
  match stat_of w p with
  | Some (Dir _) => true
  | _ => false
  end.

Definition os_listdir (p : path) : M (list string) :=
  fun w =>
    match stat_of w p with
    | Some (Dir es) => (Ok (map fst es), w)
    | _ => (Err (OSError "listdir"), w)
    end.

Definition os_getcwd : M (list string) :=
  fun w =>
    match stat_of w (Abs (cwd w)) with
    | Some (Dir _) => (Ok (cwd w), w)
    | _ => (Err (OSError "getcwd"), w)
    end.

Definition os_chdir (p : path) : M unit :=
  fun w =>
    match stat_of w p with
    | Some (Dir _) => (Ok tt, set_cwd (resolve (cwd w) p) w)
    | _ => (Err (OSError "chdir"), w)
    end.

Definition size_of (h : host) (n : node) : result Z :=
  match follow n with
  | File c => Ok (Z.of_nat (String.length c))
  | Dir _ => Ok (st_size_dir h)
  | Special s => Ok (Z.of_N s)
  | _ => Err (OSError "stat")
  end.

Definition getsize (h : host) (p : path) : M Z :=
  fun w =>
    match stat_of w p with
    | Some n => (size_of h n, w)
    | None => (Err (OSError "stat"), w)
    end.

(** [os.walk(top)], top-down, links not followed, scan errors skipped:
    one triple (root, dirs, files) per directory. *)
Fixpoint walk_node (top : path) (n : node)
  : list (path * list string * list string) :=
  match n with
  | Dir es =>
      (top, dirnames es, filenames es)
        :: flat_map (fun '(name, c) => walk_node (join top name) c) es
  | _ => []
  end.

Definition os_walk (w : world) (top : path)
  : list (path * list string * list string) :=
  match stat_of w top with
  | Some n => walk_node top n
  | None => []
  end.

(** One more reading of the clock has been taken. *)
Definition tick (w : world) : world :=
  mkWorld (fs w) (cwd w) (S (ticks w)) (trace w ++ [EvTime (ticks w)]).

Definition time_time (h : host) : M Z :=
  fun w => (Ok (clock h (ticks w)), tick w).

(** [subprocess.call(cmd)]: the exit status is the value returned. *)
Definition call (h : host) (cmd : list string) : M Z :=
  fun w =>
    let w1 := log (EvCall cmd (cwd w)) w in
    match spawn h cmd w with
    | Ok (f, status) => (Ok status, set_fs f w1)
    | Err e => (Err e, w1)
    end.

(** [open(p, 'a')]: the file is created when missing; the handle is the
    resolved location.  A directory cannot be opened; neither can a
    special file here (as for a socket: devices that take what is written
    to them are not modelled). *)
Definition open_append (p : path) : M (list string) :=
  fun w =>
    let loc := resolve (cwd w) p in
    match stat_of w p with
    | Some (File _) => (Ok loc, w)
    | Some _ => (Err (OSError "open"), w)
    | None =>
        match write_at (fs w) loc (File "") with
        | Some f => (Ok loc, set_fs f w)
        | None => (Err (OSError "open"), w)
        end
    end.

(** The write of a text to an open file: the text is appended, through
    the link if the file was opened through one, unless the host refuses
    the write, which leaves the file as it was. *)
Definition file_write (h : host) (loc : list string) (text : string)
  : M unit :=
  fun w =>
    match lookup (fs w) loc with
    | Some e =>
        match follow e with
        | File c =>
            match write_error h loc text w with
            | Some x => (Err x, w)
            | None =>
                match write_at (fs w) loc (rewrap e (File (c ++ text))) with
                | Some f => (Ok tt, set_fs f w)
                | None => (Err (OSError "write"), w)
                end
            end
        | _ => (Err (OSError "write"), w)
        end
    | None => (Err (OSError "write"), w)
    end.

(** [shutil.rmtree(p)]: [p] must be a real directory. *)
Definition shutil_rmtree (p : path) : M unit :=
  fun w =>
    let loc := resolve (cwd w) p in
    let w1 := log (EvRmtree loc) w in
    match lookup (fs w) loc with
    | Some (Dir _) =>
        match remove_at (fs w) loc with
        | Some f => (Ok tt, set_fs f w1)
        | None => (Err (OSError "rmtree"), w1)
        end
    | _ => (Err (OSError "rmtree"), w1)
    end.

(** [print(json.dumps(d, indent=2))]: the record reaches standard output. *)
Definition print_json (d : dict) : M unit :=
  fun w => (Ok tt, log (EvPrint d) w).

(** ** The csv module, default dialect *)

Definition dquote : ascii := "034"%char.
Definition CRLF : string := String "013"%char (String "010"%char EmptyString).

Fixpoint string_exists (f : ascii -> bool) (s : string) : bool :=
  match s with
  | EmptyString => false
  | String c r => f c || string_exists f r
  end.

Definition needs_quote (s : string) : bool :=
  string_exists
    (fun c => Ascii.eqb c ","%char || Ascii.eqb c dquote
              || Ascii.eqb c "013"%char || Ascii.eqb c "010"%char) s.

Fixpoint double_quotes (s : string) : string :=
  match s with
  | EmptyString => EmptyString
  | String c r =>
      if Ascii.eqb c dquote then String c (String c (double_quotes r))
      else String c (double_quotes r)
  end.

Definition csv_field (s : string) : string :=
  if needs_quote s
  then String dquote (double_quotes s ++ String dquote EmptyString)
  else s.

Definition csv_line (cells : list string) : string :=
  match cells with
  | [EmptyString] => String dquote (String dquote CRLF)
  | _ => String.concat "," (map csv_field cells) ++ CRLF
  end.

Definition str_value (v : value) : string :=
  match v with
  | VStr s => s
  | VNum z => NilZero.string_of_int (Z.to_int z)
  end.

(** [DictWriter.writeheader] *)
Definition writeheader (h : host) (fobj : list string)
  (fieldnames : list string) : M unit :=
  file_write h fobj (csv_line fieldnames).

(** [DictWriter.writerow]: a key outside the field names is refused, a
    missing one is written as the empty string. *)
Definition writerow (h : host) (fobj : list string)
  (fieldnames : list string) (rowdict : dict) : M unit :=
  if existsb (fun kv => negb (existsb (String.eqb (fst kv)) fieldnames)) rowdict
  then raise (ValueError "dict contains fields not in fieldnames")
  else
    file_write h fobj
      (csv_line
         (map (fun k => match dict_get rowdict k with
                        | Some v => str_value v
                        | None => EmptyString
                        end) fieldnames)).

(** ** Projects and results keys *)

Record project_definition : Type := mkProject {
  repo : string;
  cmds : list (list string)
}.

Definition PROJECTS : list (string * project_definition) :=
  [ ("redis",
     mkProject "git@github.com:antirez/redis.git"
       [ ["make"] ]);
    ("postgres",
     mkProject "git@github.com:postgres/postgres.git"
       [ ["./configure"]; ["make"] ]);
    ("nginx",
     mkProject "git@github.com:nginx/nginx.git"
       [ ["./auto/configure"]; ["make"] ]);
    ("apache",
     mkProject "git@github.com:apache/httpd.git"
       [ ["git"; "clone"; "git@github.com:apache/apr.git"; "srclib/apr"];
         ["./buildconf"];
         ["./configure"; "--with-included-apr"];
         ["make"] ]);
    ("ruby",
     mkProject "git@github.com:ruby/ruby.git"
       [ ["autoconf"]; ["./configure"]; ["make"] ]);
    ("python",
     mkProject "git@github.com:python/cpython.git"
       [ ["./configure"]; ["make"] ]) ].

Fixpoint projects_get (ps : list (string * project_definition))
  (name : string) : option project_definition :=
  match ps with
  | [] => None
  | (k, p) :: r => if String.eqb k name then Some p else projects_get r name
  end.

Definition TEST_NAME   := "test name".
Definition TEST_PATH   := "test path".
Definition CLONE_TIME  := "clone time".
Definition CLONE_STAT  := "clone stat".
Definition CLONE_BYTES := "clone bytes".
Definition CLONE_FILES := "clone files".
Definition CLONE_DIRS  := "clone dirs".
Definition BUILD_TIME  := "build time".
Definition BUILD_STAT  := "build stat".
Definition BUILD_BYTES := "build bytes".
Definition BUILD_FILES := "build files".
Definition BUILD_DIRS  := "build dirs".

Definition TEST_RESULTS  := [TEST_NAME; TEST_PATH; CLONE_TIME; BUILD_TIME].
Definition CLONE_RESULTS := [CLONE_STAT; CLONE_BYTES; CLONE_FILES; CLONE_DIRS].
Definition BUILD_RESULTS := [BUILD_STAT; BUILD_BYTES; BUILD_FILES; BUILD_DIRS].

(** ** Helper functions *)

Section Workload.

Variable h : host.

Definition timeit {A} (func : M A) : M (A * Z) :=
  started <- time_time h ;;
  result <- func ;;
  now <- time_time h ;;
  ret (result, now - started).

Definition withcwd {A} (func : M A) : M A :=
  cwd0 <- os_getcwd ;;
  try_finally func (os_chdir (Abs cwd0)).

(** The loop of [statdir] over the triples of the walk, with its three
    running totals. *)
Fixpoint statdir_loop (triples : list (path * list string * list string))
  (acc : Z * Z * Z) : M (Z * Z * Z) :=
  match triples with
  | [] => ret acc
  | (root, dirs, files) :: rest =>
      let '(n_bytes, n_files, n_dirs) := acc in
      s <- sum_of (fun name => getsize h (join root name)) files ;;
      statdir_loop rest
        (n_bytes + s,
         n_files + Z.of_nat (List.length files),
         n_dirs + Z.of_nat (List.length dirs))
  end.

Definition statdir (p : path) : M ((Z * Z * Z) * Z) :=
  timeit (triples <- gets (fun w => os_walk w p) ;;
          statdir_loop triples (0, 0, 0)).

Definition clone (repo : string) (p : path) : M (unit * Z) :=
  timeit (call h ["git"; "clone"; repo; path_str p] ;;; ret tt).

Definition build (cmds : list (list string)) (p : path) : M (unit * Z) :=
  timeit (withcwd (os_chdir p ;;;
                   for_each (fun cmd => call h cmd ;;; ret tt) cmds)).

(** ** Run workload *)

Definition set_all (results : dict) (kvs : list (string * value)) : dict :=
  fold_left (fun r kv => dict_set r (fst kv) (snd kv)) kvs results.

Definition run_workload (p : path) (project : string) (output : path)
  (header : bool) : M unit :=
  ex <- gets (fun w => os_path_exists w p) ;;
  isd <- gets (fun w => os_path_isdir w p) ;;
  if negb ex || negb isd
  then raise (TypeError (path_str p ++ " must be an existing directory!"))
  else
    names <- os_listdir p ;;
    if (0 <? List.length names)%nat
    then raise (ValueError (path_str p ++ " is not empty!"))
    else
      match projects_get PROJECTS project with
      | None => raise (ValueError ("unknown project '" ++ project ++ "'"))
      | Some commands =>
          let results := [(TEST_NAME, VStr project);
                          (TEST_PATH, VStr (path_str p))] in
          '(_, t) <- clone (repo commands) (join p project) ;;
          let results := dict_set results CLONE_TIME (VNum t) in
          '((size, files, dirs), time) <- statdir p ;;
          let results :=
            set_all results
              (combine CLONE_RESULTS
                 [VNum time; VNum size; VNum files; VNum dirs]) in
          '(_, t) <- build (cmds commands) (join p project) ;;
          let results := dict_set results BUILD_TIME (VNum t) in
          '((size, files, dirs), time) <- statdir p ;;
          let results :=
            set_all results
              (combine BUILD_RESULTS
                 [VNum time; VNum size; VNum files; VNum dirs]) in
          fobj <- open_append output ;;
          let fields := (TEST_RESULTS ++ CLONE_RESULTS ++ BUILD_RESULTS)%list in
          (if header then writeheader h fobj fields else ret tt) ;;;
          writerow h fobj fields results ;;;
          shutil_rmtree (join p project) ;;;
          print_json results
      end.

(** *** The stages of [run_workload]

    The same statements, cut where the comments of the source cut them:
    validation (the three checks), measurement (clone, stat, build, stat),
    persistence (the [with open] block).  [run_workload_stages] below shows
    that [run_workload] is their sequence followed by the cleanup and the
    print. *)

Definition validate (p : path) (project : string)
  : M project_definition :=
  ex <- gets (fun w => os_path_exists w p) ;;
  isd <- gets (fun w => os_path_isdir w p) ;;
  if negb ex || negb isd
  then raise (TypeError (path_str p ++ " must be an existing directory!"))
  else
    names <- os_listdir p ;;
    if (0 <? List.length names)%nat
    then raise (ValueError (path_str p ++ " is not empty!"))
    else
      match projects_get PROJECTS project with
      | None => raise (ValueError ("unknown project '" ++ project ++ "'"))
      | Some commands => ret commands
      end.

Definition measure (p : path) (project : string)
  (commands : project_definition) : M dict :=
  let results := [(TEST_NAME, VStr project);
                  (TEST_PATH, VStr (path_str p))] in
  '(_, t) <- clone (repo commands) (join p project) ;;
  let results := dict_set results CLONE_TIME (VNum t) in
  '((size, files, dirs), time) <- statdir p ;;
  let results :=
    set_all results
      (combine CLONE_RESULTS
         [VNum time; VNum size; VNum files; VNum dirs]) in
  '(_, t) <- build (cmds commands) (join p project) ;;
  let results := dict_set results BUILD_TIME (VNum t) in
  '((size, files, dirs), time) <- statdir p ;;
  ret (set_all results
         (combine BUILD_RESULTS
            [VNum time; VNum size; VNum files; VNum dirs])).

Definition persist (output : path) (header : bool) (results : dict)
  : M unit :=
  fobj <- open_append output ;;
  let fields := (TEST_RESULTS ++ CLONE_RESULTS ++ BUILD_RESULTS)%list in
  (if header then writeheader h fobj fields else ret tt) ;;;
  writerow h fobj fields results.

End Workload.

(** ** Reading the outcome *)

(** The text of the file at [p], if [p] names a regular file. *)
Definition read_text (w : world) (p : path) : option string :=
  match stat_of w p with
  | Some (File c) => Some c
  | _ => None
  end.

(** The text found by [open(p, 'a')]: empty for a file yet to be created. *)
Definition text_before (w : world) (p : path) : string :=
  match read_text w p with
  | Some c => c
  | None => EmptyString
  end.

Definition listing (w : world) (p : path) : option (list string) :=
  match stat_of w p with
  | Some (Dir es) => Some (map fst es)
  | _ => None
  end.

(** The trees removed and the records printed, in order. *)
Fixpoint cleanups (tr : list event) : list (list string) :=
  match tr with
  | [] => []
  | EvRmtree d :: r => d :: cleanups r
  | _ :: r => cleanups r
  end.

Fixpoint printed (tr : list event) : list dict :=
  match tr with
  | [] => []
  | EvPrint d :: r => d :: printed r
  | _ :: r => printed r
  end.

(** The same host, whose programs exit with the statuses [st] instead. *)
Definition with_status (st : list string -> world -> Z) (h : host) : host :=
  mkHost (clock h)
    (fun cmd w =>
       match spawn h cmd w with
       | Ok (f, _) => Ok (f, st cmd w)
       | Err e => Err e
       end)
    (st_size_dir h)
    (write_error h).

(** The twelve columns, as the specification lists them. *)
Definition COLUMNS : list string :=
  ["test name"; "test path"; "clone time"; "build time";
   "clone stat"; "clone bytes"; "clone files"; "clone dirs";
   "build stat"; "build bytes"; "build files"; "build dirs"].

Definition HEADER_LINE : string :=
  "test name,test path,clone time,build time,clone stat,clone bytes,clone files,clone dirs,build stat,build bytes,build files,build dirs"
  ++ CRLF.

(** The cells of the row of a record, in column order. *)
Definition row_of (results : dict) : list string :=
  map (fun k => match dict_get results k with
                | Some v => str_value v
                | None => EmptyString
                end) COLUMNS.

Definition NonEmptyTargetError (p : path) : exn :=
  ValueError (path_str p ++ " is not empty!").
Definition UnknownProjectError (project : string) : exn :=
  ValueError ("unknown project '" ++ project ++ "'").

(** ** Aggregates of a directory tree, by structure *)














(** [p] is [q] or lies below it. *)
Fixpoint is_prefix (q p : list string) : bool :=
  match q, p with
  | [], _ => true
  | x :: q', y :: p' => String.eqb x y && is_prefix q' p'
  | _ :: _, [] => false
  end.

Definition monotone (c : nat -> Z) : Prop :=
  forall i j, (i <= j)%nat -> c i <= c j.

(** ** Notions used in the statements *)




(** [w'] comes after [w], with neither a removal nor a print in between. *)
Definition quietly_after (w w' : world) : Prop :=
  exists evs,
    trace w' = (trace w ++ evs)%list
    /\ cleanups evs = [] /\ printed evs = [].

(** A computation that, however it ends, neither removes nor prints. *)
Definition quiet {A} (m : M A) : Prop :=
  forall w r w', m w = (r, w') -> quietly_after w w'.

(** No key of the record falls outside the columns. *)
Definition known_keys (results : dict) : Prop :=
  existsb (fun kv => negb (existsb (String.eqb (fst kv)) COLUMNS)) results
  = false.

(** ** A small host and a few worlds to run the script on *)

Definition demo_tree : node :=
  Dir [("Makefile", File "all: redis-server");
       ("src", Dir [("server.c", File "int main(void) { return 0; }");
                    ("deps", Dir [])])].

(** A version-control client that creates the clone at [dest], a
    configure script and a build tool that each leave one file in their
    working directory; all exit with [status]. *)
Definition fake_spawn (dest : list string) (status : Z) (cmd : list string)
  (w : world) : result (node * Z) :=
  match cmd with
  | "git" :: _ =>
      match write_at (fs w) dest demo_tree with
      | Some f => Ok (f, status)
      | None => Ok (fs w, 128)
      end
  | "./configure" :: _ =>
      match write_at (fs w) (cwd w ++ ["config.h"]) (File "#define OK") with
      | Some f => Ok (f, status)
      | None => Ok (fs w, 1)
      end
  | "make" :: _ =>
      match write_at (fs w) (cwd w ++ ["redis-server"]) (File "ELF") with
      | Some f => Ok (f, status)
      | None => Ok (fs w, 2)
      end
  | _ => Err (OSError "No such file or directory")
  end.

Definition demo_spawn : Z -> list string -> world -> result (node * Z) :=
  fake_spawn ["t"; "redis"].

Definition demo_host (status : Z) : host :=
  mkHost (fun n => 100 + 7 * Z.of_nat n) (demo_spawn status) 4096
    (fun _ _ _ => None).



Definition demo_world : world :=
  mkWorld (Dir [("home", Dir []); ("t", Dir [])]) ["home"] 0 [].

Definition redis_definition : project_definition :=
  mkProject "git@github.com:antirez/redis.git" [ ["make"] ].

(** The outcome of the measurement stage in that world. *)
Definition demo_measured : result dict * world := Eval vm_compute in
  measure (demo_host 0) (Abs ["t"]) "redis" redis_definition demo_world.

(** A host that has the version-control client and no build tool. *)
Definition no_make_host : host :=
  mkHost (fun n => 100 + 7 * Z.of_nat n)
    (fun cmd w =>
       match cmd with
       | "git" :: _ => demo_spawn 0 cmd w
       | _ => Err (OSError "No such file or directory")
       end)
    4096
    (fun _ _ _ => None).

(** A host whose version-control client fails: it creates nothing and
    exits with status 128. *)
Definition broken_git_host : host :=
  mkHost (fun n => 100 + 7 * Z.of_nat n)
    (fun cmd w =>
       match cmd with
       | "git" :: _ => Ok (fs w, 128)
       | _ => demo_spawn 0 cmd w
       end)
    4096
    (fun _ _ _ => None).

(** The same world once the clone is in place. *)
Definition cloned_world : world :=
  mkWorld (Dir [("home", Dir []); ("t", Dir [("redis", demo_tree)])])
    ["home"] 0 [].

(** ** The main program *)

(** The programs launched, each with the directory it was launched from,
    in order. *)
Fixpoint launched (tr : list event) : list (list string * list string) :=
  match tr with
  | [] => []
  | EvCall cmd d :: r => (cmd, d) :: launched r
  | _ :: r => launched r
  end.

(** [str(e)] *)
Definition str_exn (e : exn) : string :=
  match e with
  | TypeError msg => msg
  | ValueError msg => msg
  | OSError msg => msg
  | KeyboardInterrupt => EmptyString
  end.

(** [isinstance(e, Exception)] *)
Definition is_Exception (e : exn) : bool :=
  match e with
  | KeyboardInterrupt => false
  | _ => true
  end.

(** What can leave the [try] block of the main program: an exception
    raised by [run_workload], or the [SystemExit] that [parser.exit] and
    [parser.error] raise, which is not of class [Exception]. *)
Inductive raised : Type :=
| Raised (e : exn)
| SystemExit (status : Z) (message : option string).

Definition P (A : Type) : Type := world -> (A + raised) * world.

Definition lift {A} (m : M A) : P A :=
  fun w =>
    match m w with
    | (Ok a, w1) => (inl a, w1)
    | (Err e, w1) => (inr (Raised e), w1)
    end.

Definition and_then {A B} (m : P A) (k : A -> P B) : P B :=
  fun w =>
    match m w with
    | (inl a, w1) => k a w1
    | (inr r, w1) => (inr r, w1)
    end.

(** [try: body except Exception as e: handler(e)]: an exception that is
    not of class [Exception] passes through. *)
Definition try_except_Exception {A} (body : P A) (handler : exn -> P A)
  : P A :=
  fun w =>
    match body w with
    | (inr (Raised e), w1) =>
        if is_Exception e then handler e w1 else (inr (Raised e), w1)
    | other => other
    end.

(** [parser.exit(status)] *)
Definition parser_exit (status : Z) : P unit :=
  fun w => (inr (SystemExit status None), w).

(** [parser.error(message)]: the message goes to standard error and the
    process exits with status 2. *)
Definition parser_error (message : string) : P unit :=
  fun w => (inr (SystemExit 2 (Some message)), w).

(** The parsed arguments; [ns_path] is the one element of [args.path]. *)
Record namespace : Type := mkNamespace {
  ns_path : path;
  ns_output : path;
  ns_project : string;
  ns_header : bool
}.

(** The statements that follow [parser.parse_args()]. *)
Definition main (h : host) (args : namespace) : P unit :=
  try_except_Exception
    (and_then
       (lift (run_workload h (ns_path args) (ns_project args)
                (ns_output args) (ns_header args)))
       (fun _ => parser_exit 0))
    (fun e => parser_error (str_exn e)).




(** A host whose disk is full: every write fails. *)
Definition full_disk_host : host :=
  mkHost (fun n => 100 + 7 * Z.of_nat n) (demo_spawn 0) 4096
    (fun _ _ _ => Some (OSError "No space left on device")).

(** A host on which the build is interrupted from the keyboard. *)
Definition interrupted_host : host :=
  mkHost (fun n => 100 + 7 * Z.of_nat n)
    (fun cmd w =>
       match cmd with
       | "make" :: _ => Err KeyboardInterrupt
       | _ => demo_spawn 0 cmd w
       end)
    4096
    (fun _ _ _ => None).


(** The record measured in [demo_world], and the world left by the
    [with] block when the disk is full: the results file has been
    created and is empty. *)
Definition demo_record : dict := Eval vm_compute in
  match fst demo_measured with Ok r => r | Err _ => [] end.

Definition full_disk_persisted : world := Eval vm_compute in
  snd (persist full_disk_host (Rel ["results.csv"]) true demo_record
         (snd demo_measured)).





(** * Properties *)

(** ** A few evaluations *)

Example csv_plain_cells : csv_line ["redis"; "/t"; "7"] = "redis,/t,7" ++ CRLF.
Proof. reflexivity. Qed.

Example csv_cell_with_comma :
  csv_field "/tmp/a,b" = String dquote ("/tmp/a,b" ++ String dquote "").
Proof. reflexivity. Qed.

Example str_value_negative : str_value (VNum (-12)) = "-12".
Proof. reflexivity. Qed.

Example join_relative : path_str (join (Rel ["bench"]) "redis") = "bench/redis".
Proof. reflexivity. Qed.

Example walk_of_clone :
  map (fun t => path_str (fst (fst t))) (os_walk cloned_world (Abs ["t"]))
  = ["/t"; "/t/redis"; "/t/redis/src"; "/t/redis/src/deps"].
Proof. reflexivity. Qed.

Example statdir_empty_target :
  fst (statdir (demo_host 0) (Abs ["t"]) demo_world) = Ok ((0, 0, 0), 7).
Proof. reflexivity. Qed.

Example statdir_dangling_link :
  fst (statdir (demo_host 0) (Abs [])
         (mkWorld (Dir [("a", File "xy"); ("l", Dangling)]) [] 0 []))
  = Err (OSError "stat").
Proof. reflexivity. Qed.

(** ** Induction on directory trees *)


(** ** Links *)

Lemma follow_rewrap_dir n es : follow (rewrap n (Dir es)) = Dir es.
Proof. induction n; simpl; auto. Qed.

Lemma follow_rewrap n d : follow (rewrap n d) = follow d.
Proof. induction n; simpl; auto. Qed.



(** ** Directory entries *)

Lemma find_entry_set_same x c es : find_entry x (set_entry x c es) = Some c.
Proof.
  induction es as [| [k d] r IH]; simpl.
  - now rewrite String.eqb_refl.
  - destruct (String.eqb k x) eqn:E; simpl; rewrite E; auto.
Qed.

Lemma find_entry_set_other x y c es :
  String.eqb x y = false ->
  find_entry y (set_entry x c es) = find_entry y es.
Proof.
  intros Hxy.
  induction es as [| [k d] r IH]; simpl.
  - now rewrite Hxy.
  - destruct (String.eqb k x) eqn:E; simpl.
    + apply String.eqb_eq in E; subst k. now rewrite Hxy.
    + now rewrite IH.
Qed.

Lemma find_entry_remove_same x es : find_entry x (remove_entry x es) = None.
Proof.
  induction es as [| [k d] r IH]; simpl; auto.
  destruct (String.eqb k x) eqn:E; simpl; auto.
  now rewrite E.
Qed.

Lemma find_entry_remove_other x y es :
  String.eqb x y = false ->
  find_entry y (remove_entry x es) = find_entry y es.
Proof.
  intros Hxy.
  induction es as [| [k d] r IH]; simpl; auto.
  destruct (String.eqb k x) eqn:E; simpl.
  - apply String.eqb_eq in E; subst k. now rewrite Hxy.
  - now rewrite IH.
Qed.

Lemma map_fst_remove_entry x es :
  map fst (remove_entry x es)
  = filter (fun k => negb (String.eqb k x)) (map fst es).
Proof.
  induction es as [| [k d] r IH]; simpl; auto.
  destruct (String.eqb k x); simpl; now rewrite IH.
Qed.



(** ** Looking up, writing and removing along a path *)


Lemma lookup_write_at n p c n' :
  write_at n p c = Some n' -> lookup n' p = Some c.
Proof.
  revert n n'. induction p as [| x q IH]; intros n n' H; simpl in *.
  - congruence.
  - destruct (follow n) as [c0 | es | | lt | sz]; try discriminate.
    destruct q as [| y q'].
    + inversion H; subst. rewrite follow_rewrap_dir.
      now rewrite find_entry_set_same.
    + destruct (find_entry x es) as [d |] eqn:Ex; try discriminate.
      destruct (write_at d (y :: q') c) as [d' |] eqn:Ew; try discriminate.
      inversion H; subst. rewrite follow_rewrap_dir.
      rewrite find_entry_set_same. now apply (IH d).
Qed.

Lemma write_at_present n p c m :
  lookup n p = Some m -> exists n', write_at n p c = Some n'.
Proof.
  revert n. induction p as [| x q IH]; intros n H; simpl in *.
  - eauto.
  - destruct (follow n) as [c0 | es | | lt | sz]; try discriminate.
    destruct (find_entry x es) as [d |] eqn:Ex; try discriminate.
    destruct q as [| y q']; [eauto |].
    destruct (IH d H) as [d' Hd']. rewrite Hd'. eauto.
Qed.

(** Removing a tree leaves the regular files outside it as they were. *)
Lemma remove_at_elsewhere q : forall n n' p,
  remove_at n q = Some n' ->
  is_prefix q p = false ->
  match option_map follow (lookup n' p) with
  | Some (File c) => Some c
  | _ => None
  end
  = match option_map follow (lookup n p) with
    | Some (File c) => Some c
    | _ => None
    end.
Proof.
  induction q as [| x q IH]; intros n n' p Hr Hp; simpl in *; [discriminate |].
  destruct (follow n) as [c0 | es | | lt | sz] eqn:Ef; try discriminate.
  destruct (find_entry x es) as [d |] eqn:Ex; try discriminate.
  assert (Hn' : exists es', n' = rewrap n (Dir es')).
  { destruct q as [| z q']; [inversion Hr; eauto |].
    destruct (remove_at d (z :: q')); inversion Hr; eauto. }
  destruct p as [| y p'].
  - destruct Hn' as [es' ->]. simpl. now rewrite follow_rewrap_dir, Ef.
  - clear Hn'.
    destruct (String.eqb x y) eqn:Exy; simpl in Hp.
    + apply String.eqb_eq in Exy; subst y.
      destruct q as [| z q'].
      * destruct p'; discriminate.
      * destruct (remove_at d (z :: q')) as [d' |] eqn:Ed; try discriminate.
        inversion Hr; subst. cbn [lookup].
        rewrite follow_rewrap_dir, Ef, find_entry_set_same, Ex.
        now apply IH.
    + destruct q as [| z q'].
      * inversion Hr; subst. cbn [lookup].
        now rewrite follow_rewrap_dir, Ef, find_entry_remove_other.
      * destruct (remove_at d (z :: q')) as [d' |] eqn:Ed; try discriminate.
        inversion Hr; subst. cbn [lookup].
        now rewrite follow_rewrap_dir, Ef, find_entry_set_other.
Qed.

(** Removing [a/x] leaves the directory [a] with its other entries, and
    nothing at [a/x]. *)
Lemma remove_at_parent a : forall n n' x,
  remove_at n (a ++ [x]) = Some n' ->
  exists es,
    option_map follow (lookup n a) = Some (Dir es)
    /\ option_map follow (lookup n' a) = Some (Dir (remove_entry x es))
    /\ lookup n' (a ++ [x]) = None.
Proof.
  induction a as [| y a IH]; intros n n' x Hr; simpl in Hr.
  - destruct (follow n) as [c0 | es | | lt | sz] eqn:Ef; try discriminate.
    destruct (find_entry x es) eqn:Ex; try discriminate.
    inversion Hr; subst. exists es. simpl.
    rewrite follow_rewrap_dir, Ef.
    now rewrite find_entry_remove_same.
  - destruct (follow n) as [c0 | es | | lt | sz] eqn:Ef; try discriminate.
    destruct (find_entry y es) as [d |] eqn:Ey; try discriminate.
    destruct (a ++ [x])%list as [| z r] eqn:Ea.
    { destruct a; discriminate. }
    destruct (remove_at d (z :: r)) as [d' |] eqn:Ed; try discriminate.
    inversion Hr; subst.
    destruct (IH d d' x) as [es' [H1 [H2 H3]]].
    { now rewrite Ea. }
    exists es'. cbn [lookup app].
    rewrite follow_rewrap_dir, Ef, find_entry_set_same, Ey. auto.
Qed.

(** ** Stepping through the monad *)

Lemma bind_ok {A B} (m : M A) (f : A -> M B) w b w' :
  bind m f w = (Ok b, w') ->
  exists a w1, m w = (Ok a, w1) /\ f a w1 = (Ok b, w').
Proof.
  unfold bind. destruct (m w) as [[a | e] w1]; intros H.
  - eauto.
  - discriminate.
Qed.

Lemma bind_err {A B} (m : M A) (f : A -> M B) w e w' :
  bind m f w = (Err e, w') ->
  m w = (Err e, w')
  \/ exists a w1, m w = (Ok a, w1) /\ f a w1 = (Err e, w').
Proof.
  unfold bind. destruct (m w) as [[a | e0] w1]; intros H.
  - right. eauto.
  - left. now inversion H.
Qed.

Lemma bind_step {A B} (m : M A) (f : A -> M B) w a w1 :
  m w = (Ok a, w1) -> bind m f w = f a w1.
Proof. unfold bind. now intros ->. Qed.

Lemma bind_fail {A B} (m : M A) (f : A -> M B) w e w1 :
  m w = (Err e, w1) -> bind m f w = (Err e, w1).
Proof. unfold bind. now intros ->. Qed.

Lemma bind_cases {A B} (m : M A) (f : A -> M B) w r w' :
  bind m f w = (r, w') ->
  (exists a w1, m w = (Ok a, w1) /\ f a w1 = (r, w'))
  \/ (exists e, m w = (Err e, w') /\ r = Err e).
Proof.
  unfold bind. destruct (m w) as [[a | e] w1]; intros H.
  - left. eauto.
  - right. inversion H; subst. eauto.
Qed.

Lemma bind_ext {A B} (m1 m2 : M A) (f1 f2 : A -> M B) w :
  m1 w = m2 w ->
  (forall a w1, f1 a w1 = f2 a w1) ->
  bind m1 f1 w = bind m2 f2 w.
Proof.
  unfold bind. intros -> Hf.
  destruct (m2 w) as [[a | e] w1]; auto.
Qed.

(** ** Paths *)

Lemma resolve_join d p x : resolve d (join p x) = (resolve d p ++ [x])%list.
Proof. destruct p; simpl; auto. now rewrite app_assoc. Qed.


(** ** The directory walk *)






Section Walk.

Variable h : host.

Lemma getsize_reads p w : snd (getsize h p w) = w.
Proof. unfold getsize. now destruct (stat_of w p). Qed.





(** The walk only reads. *)
Lemma sum_of_getsize_reads root files w :
  snd (sum_of (fun name => getsize h (join root name)) files w) = w.
Proof.
  induction files as [| x r IH]; simpl; auto.
  unfold bind at 1.
  pose proof (getsize_reads (join root x) w) as Hg.
  destruct (getsize h (join root x) w) as [[z | e] w1]; simpl in Hg; subst;
    auto.
  unfold bind.
  destruct (sum_of _ r w) as [[s | e] w1]; simpl in IH; subst; auto.
Qed.

Lemma statdir_loop_reads triples : forall acc w,
  snd (statdir_loop h triples acc w) = w.
Proof.
  induction triples as [| [[root dirs] files] r IH]; intros [[b f] d] w;
    simpl; auto.
  unfold bind.
  pose proof (sum_of_getsize_reads root files w) as Hs.
  destruct (sum_of _ files w) as [[s | e] w1]; simpl in Hs; subst; auto.
Qed.


End Walk.




(** ** [statdir] *)

Lemma statdir_run h p w :
  statdir h p w
  = match statdir_loop h (os_walk w p) (0, 0, 0) (tick w) with
    | (Ok r, _) =>
        (Ok (r, clock h (S (ticks w)) - clock h (ticks w)), tick (tick w))
    | (Err e, _) => (Err e, tick w)
    end.
Proof.
  unfold statdir, timeit, bind, time_time, gets, ret.
  change (os_walk (tick w) p) with (os_walk w p).
  pose proof (statdir_loop_reads h (os_walk w p) (0, 0, 0) (tick w)) as Hr.
  destruct (statdir_loop h (os_walk w p) (0, 0, 0) (tick w)) as [[r | e] w1];
    simpl in Hr; subst w1; reflexivity.
Qed.






(** What [statdir] leaves behind, whatever it returns. *)
Lemma statdir_world h p w r w' :
  statdir h p w = (r, w') ->
  match r with
  | Ok (_, t) =>
      t = clock h (S (ticks w)) - clock h (ticks w) /\ w' = tick (tick w)
  | Err _ => w' = tick w
  end.
Proof.
  rewrite statdir_run.
  destruct (statdir_loop h (os_walk w p) (0, 0, 0) (tick w)) as [[x | e] w1];
    intros H; inversion H; subst; auto.
Qed.


Lemma demo_clock_monotone status : monotone (clock (demo_host status)).
Proof. intros i j Hij. cbn [clock demo_host]. lia. Qed.






(** ** Validation *)

Lemma projects_get_absent ps name :
  ~ In name (map fst ps) -> projects_get ps name = None.
Proof.
  induction ps as [| [k d] r IH]; simpl; intros H; auto.
  destruct (String.eqb k name) eqn:E.
  - apply String.eqb_eq in E. tauto.
  - apply IH. tauto.
Qed.

Lemma projects_get_present ps name d :
  projects_get ps name = Some d -> In name (map fst ps).
Proof.
  induction ps as [| [k d'] r IH]; simpl; intros H; [discriminate |].
  destruct (String.eqb k name) eqn:E.
  - apply String.eqb_eq in E. now left.
  - right. now apply IH.
Qed.

Lemma listing_dir w p names :
  listing w p = Some names ->
  exists es, stat_of w p = Some (Dir es) /\ names = map fst es.
Proof.
  unfold listing. destruct (stat_of w p) as [[c | es | | lt | sz] |]; try discriminate.
  intros H. inversion H. eauto.
Qed.

Arguments projects_get : simpl never.

(** The three checks leave the world as it is. *)
Lemma validate_world p project w r w' :
  validate p project w = (r, w') -> w' = w.
Proof.
  unfold validate, bind, gets, raise, ret, os_listdir.
  destruct (negb (os_path_exists w p) || negb (os_path_isdir w p)).
  - now inversion 1.
  - destruct (stat_of w p) as [[c | es | | lt | sz] |]; try now inversion 1.
    destruct (0 <? List.length (map fst es))%nat; [now inversion 1 |].
    destruct (projects_get PROJECTS project); now inversion 1.
Qed.

Lemma validate_ok p project w commands w' :
  validate p project w = (Ok commands, w') ->
  listing w p = Some []
  /\ projects_get PROJECTS project = Some commands.
Proof.
  unfold validate, bind, gets, raise, ret, os_listdir, listing.
  destruct (negb (os_path_exists w p) || negb (os_path_isdir w p));
    [discriminate |].
  destruct (stat_of w p) as [[c | es | | lt | sz] |]; try discriminate.
  destruct es as [| e r]; simpl; [| discriminate].
  destruct (projects_get PROJECTS project); [| discriminate].
  intros H. inversion H. auto.
Qed.

Lemma validate_empty_target p project w :
  listing w p = Some [] ->
  validate p project w
  = match projects_get PROJECTS project with
    | Some commands => (Ok commands, w)
    | None => (Err (UnknownProjectError project), w)
    end.
Proof.
  intros H. destruct (listing_dir w p [] H) as [es [Hst Hes]].
  unfold validate, bind, gets, raise, ret, os_listdir,
    os_path_exists, os_path_isdir.
  destruct es; [| discriminate].
  repeat (rewrite Hst; simpl).
  now destruct (projects_get PROJECTS project).
Qed.

(** [run_workload] is its stages in sequence. *)
Lemma run_workload_stages h p project output header w :
  run_workload h p project output header w
  = (commands <- validate p project ;;
     results <- measure h p project commands ;;
     persist h output header results ;;;
     shutil_rmtree (join p project) ;;;
     print_json results) w.
Proof.
  unfold run_workload, validate, measure, persist, bind, gets, raise, ret.
  destruct (negb (os_path_exists w p) || negb (os_path_isdir w p)); auto.
  destruct (os_listdir p w) as [[names | e] w1]; auto.
  destruct (0 <? List.length names)%nat; auto.
  destruct (projects_get PROJECTS project) as [commands |]; auto.
  destruct (clone h (repo commands) (join p project) w1) as [[[u t] | e] w2];
    auto.
  destruct (statdir h p w2) as [[[[[s f] d] t1] | e] w3]; auto.
  destruct (build h (cmds commands) (join p project) w3)
    as [[[u' t2] | e] w4]; auto.
  destruct (statdir h p w4) as [[[[[s' f'] d'] t3] | e] w5]; auto.
  destruct (open_append output w5) as [[fobj | e] w6]; auto.
  destruct header; auto.
  match goal with
  | |- context [writeheader ?a ?b ?c ?d] =>
      destruct (writeheader a b c d) as [[u'' | e] w7]; auto
  end.
Qed.



(** C5: with an empty target directory, a project name that is not a key
    of [PROJECTS] is refused with the unknown-project error, and nothing
    has been done: no clock reading, no program launched, no file touched. *)
Theorem C5_unknown_project h p project output header w :
  ~ In project (map fst PROJECTS) ->
  listing w p = Some [] ->
  run_workload h p project output header w
  = (Err (UnknownProjectError project), w).
Proof.
  intros Hp Hl.
  rewrite run_workload_stages.
  apply bind_fail.
  rewrite (validate_empty_target p project w Hl).
  now rewrite (projects_get_absent PROJECTS project Hp).
Qed.

Lemma C5_unknown_project_witness :
  ~ In "memcached" (map fst PROJECTS)
  /\ listing demo_world (Abs ["t"]) = Some []
  /\ run_workload (demo_host 0) (Abs ["t"]) "memcached"
       (Rel ["results.csv"]) true demo_world
     = (Err (ValueError "unknown project 'memcached'"), demo_world).
Proof.
  assert (Hp : ~ In "memcached" (map fst PROJECTS)).
  { simpl. intros H. repeat (destruct H as [H | H]; [discriminate |]).
    exact H. }
  split; [exact Hp |]. split; [reflexivity |].
  exact (C5_unknown_project (demo_host 0) (Abs ["t"]) "memcached"
           (Rel ["results.csv"]) true demo_world Hp eq_refl).
Defined.

(** ** What the measurement stage can do to the world *)

Lemma cleanups_app a b : cleanups (a ++ b) = (cleanups a ++ cleanups b)%list.
Proof.
  induction a as [| e r IH]; simpl; auto.
  destruct e; simpl; auto. now rewrite IH.
Qed.

Lemma printed_app a b : printed (a ++ b) = (printed a ++ printed b)%list.
Proof.
  induction a as [| e r IH]; simpl; auto.
  destruct e; simpl; auto. now rewrite IH.
Qed.

Lemma quietly_refl w : quietly_after w w.
Proof. exists []. now rewrite app_nil_r. Qed.

Lemma quietly_trans w1 w2 w3 :
  quietly_after w1 w2 -> quietly_after w2 w3 -> quietly_after w1 w3.
Proof.
  intros [a [Ha [Ca Pa]]] [b [Hb [Cb Pb]]]. exists (a ++ b)%list.
  rewrite Hb, Ha, app_assoc, cleanups_app, printed_app, Ca, Cb, Pa, Pb.
  auto.
Qed.

Lemma quietly_cleanups w w' :
  quietly_after w w' ->
  cleanups (trace w') = cleanups (trace w)
  /\ printed (trace w') = printed (trace w).
Proof.
  intros [evs [H [C P]]].
  now rewrite H, cleanups_app, printed_app, C, P, !app_nil_r.
Qed.

Lemma quiet_ret {A} (a : A) : quiet (ret a).
Proof. intros w r w' H. inversion H. apply quietly_refl. Qed.

Lemma quiet_gets {A} (f : world -> A) : quiet (gets f).
Proof. intros w r w' H. inversion H. apply quietly_refl. Qed.

Lemma quiet_bind {A B} (m : M A) (f : A -> M B) :
  quiet m -> (forall a, quiet (f a)) -> quiet (bind m f).
Proof.
  intros Hm Hf w r w'. unfold bind.
  destruct (m w) as [[a | e] w1] eqn:E; intros H.
  - eapply quietly_trans; [eapply Hm; eauto | eapply Hf; eauto].
  - inversion H; subst. eapply Hm; eauto.
Qed.

Lemma quiet_try_finally {A} (m : M A) (f : M unit) :
  quiet m -> quiet f -> quiet (try_finally m f).
Proof.
  intros Hm Hf w r w'. unfold try_finally.
  destruct (m w) as [r1 w1] eqn:E1.
  destruct (f w1) as [[u | e] w2] eqn:E2; intros H; inversion H; subst;
    (eapply quietly_trans; [eapply Hm; eauto | eapply Hf; eauto]).
Qed.

Lemma quiet_time h : quiet (time_time h).
Proof.
  intros w r w' H. inversion H. exists [EvTime (ticks w)]. auto.
Qed.

Lemma quiet_call h cmd : quiet (call h cmd).
Proof.
  intros w r w'. unfold call.
  destruct (spawn h cmd w) as [[f st] | e]; intros H; inversion H;
    exists [EvCall cmd (cwd w)]; auto.
Qed.

Lemma quiet_getcwd : quiet os_getcwd.
Proof.
  intros w r w'. unfold os_getcwd.
  destruct (stat_of w (Abs (cwd w))) as [[c | es | | lt | sz] |];
    intros H; inversion H; apply quietly_refl.
Qed.

Lemma quiet_chdir p : quiet (os_chdir p).
Proof.
  intros w r w'. unfold os_chdir.
  destruct (stat_of w p) as [[c | es | | lt | sz] |]; intros H; inversion H;
    exists []; simpl; now rewrite app_nil_r.
Qed.

Lemma quiet_for_each {A} (f : A -> M unit) l :
  (forall a, quiet (f a)) -> quiet (for_each f l).
Proof.
  intros Hf. induction l as [| a r IH]; simpl.
  - apply quiet_ret.
  - apply quiet_bind; auto.
Qed.

Lemma quiet_timeit h {A} (m : M A) : quiet m -> quiet (timeit h m).
Proof.
  intros Hm. unfold timeit.
  apply quiet_bind; [apply quiet_time | intros started].
  apply quiet_bind; [exact Hm | intros x].
  apply quiet_bind; [apply quiet_time | intros now]. apply quiet_ret.
Qed.

Lemma quiet_statdir h p : quiet (statdir h p).
Proof.
  intros w r w' H. apply statdir_world in H.
  destruct r as [[x t] | e].
  - destruct H as [_ ->].
    exists [EvTime (ticks w); EvTime (S (ticks w))]. simpl.
    now rewrite <- app_assoc.
  - subst. exists [EvTime (ticks w)]. auto.
Qed.

Lemma quiet_clone h r p : quiet (clone h r p).
Proof.
  apply quiet_timeit. apply quiet_bind; [apply quiet_call | intros _].
  apply quiet_ret.
Qed.

Lemma quiet_build h cmds p : quiet (build h cmds p).
Proof.
  apply quiet_timeit. unfold withcwd.
  apply quiet_bind; [apply quiet_getcwd | intros cwd0].
  apply quiet_try_finally; [| apply quiet_chdir].
  apply quiet_bind; [apply quiet_chdir | intros _].
  apply quiet_for_each. intros cmd.
  apply quiet_bind; [apply quiet_call | intros _]. apply quiet_ret.
Qed.

Lemma quiet_measure h p project commands :
  quiet (measure h p project commands).
Proof.
  unfold measure.
  apply quiet_bind; [apply quiet_clone | intros [u t]].
  apply quiet_bind; [apply quiet_statdir | intros [[[s f] d] t1]].
  apply quiet_bind; [apply quiet_build | intros [u' t2]].
  apply quiet_bind; [apply quiet_statdir | intros [[[s' f'] d'] t3]].
  apply quiet_ret.
Qed.

(** ** [clone] and [build], step by step *)

Lemma clone_ok h r p w u t w' :
  clone h r p w = (Ok (u, t), w') ->
  t = clock h (S (ticks w)) - clock h (ticks w)
  /\ cwd w' = cwd w
  /\ ticks w' = S (S (ticks w))
  /\ trace w'
     = (trace w ++ [EvTime (ticks w);
                    EvCall ["git"; "clone"; r; path_str p] (cwd w);
                    EvTime (S (ticks w))])%list.
Proof.
  unfold clone, timeit, bind, time_time, call, ret.
  destruct (spawn h _ (tick w)) as [[f st] | e]; intros H; inversion H.
  simpl. rewrite <- !app_assoc. auto.
Qed.

Lemma steps_world h cmds : forall w r w',
  for_each (fun cmd => call h cmd ;;; ret tt) cmds w = (r, w') ->
  cwd w' = cwd w /\ ticks w' = ticks w.
Proof.
  induction cmds as [| c rest IH]; intros w r w'; simpl.
  - inversion 1; auto.
  - unfold bind at 1. unfold bind at 1. unfold call, ret.
    destruct (spawn h c w) as [[f st] | e].
    + intros H. apply IH in H. simpl in H. exact H.
    + inversion 1; auto.
Qed.

Lemma steps_ok h cmds : forall w u w',
  for_each (fun cmd => call h cmd ;;; ret tt) cmds w = (Ok u, w') ->
  trace w' = (trace w ++ map (fun c => EvCall c (cwd w)) cmds)%list.
Proof.
  induction cmds as [| c rest IH]; intros w u w'; simpl.
  - inversion 1. now rewrite app_nil_r.
  - unfold bind at 1. unfold bind at 1. unfold call, ret.
    destruct (spawn h c w) as [[f st] | e]; [| discriminate].
    intros H. apply IH in H. simpl in H. rewrite H.
    now rewrite <- app_assoc.
Qed.

Lemma chdir_ok p w u w' :
  os_chdir p w = (Ok u, w') -> w' = set_cwd (resolve (cwd w) p) w.
Proof.
  unfold os_chdir.
  destruct (stat_of w p) as [[c | es | | lt | sz] |]; intros H; now inversion H.
Qed.

(** [withcwd]: when the wrapped function returns, the working directory
    is the one saved. *)
Lemma withcwd_ok {A} (m : M A) w a w' :
  withcwd m w = (Ok a, w') ->
  exists wm, m w = (Ok a, wm) /\ w' = set_cwd (cwd w) wm.
Proof.
  unfold withcwd, bind, os_getcwd, try_finally, os_chdir.
  destruct (stat_of w (Abs (cwd w))) as [[c | es | | lt | sz] |];
    try discriminate.
  destruct (m w) as [r1 wm].
  destruct (stat_of wm (Abs (cwd w))) as [[c' | es' | | lt' | sz'] |];
    intros H; inversion H; subst; eauto.
Qed.

(** [withcwd]: when an exception leaves it, the working directory is the
    one saved unless that directory is gone. *)
Lemma withcwd_err {A} (m : M A) w e w' :
  withcwd m w = (Err e, w') ->
  os_path_isdir w' (Abs (cwd w)) = true -> cwd w' = cwd w.
Proof.
  unfold withcwd, bind, os_getcwd, try_finally, os_chdir, os_path_isdir.
  destruct (stat_of w (Abs (cwd w))) as [[c | es | | lt | sz] |];
    try (intros H; inversion H; subst; reflexivity).
  destruct (m w) as [r1 wm].
  destruct (stat_of wm (Abs (cwd w))) as [[c' | es' | | lt' | sz'] |] eqn:E;
    intros H; inversion H; subst; try reflexivity;
    rewrite E; discriminate.
Qed.

(** Every way [build] can end. *)
Lemma build_inv h cmds p w r w' :
  build h cmds p w = (r, w') ->
  match r with
  | Ok (_, t) =>
      t = clock h (S (ticks w)) - clock h (ticks w)
      /\ cwd w' = cwd w
      /\ ticks w' = S (S (ticks w))
      /\ trace w'
         = (trace w ++ [EvTime (ticks w)]
              ++ map (fun c => EvCall c (resolve (cwd w) p)) cmds
              ++ [EvTime (S (ticks w))])%list
  | Err _ =>
      os_path_isdir w' (Abs (cwd w)) = true -> cwd w' = cwd w
  end.
Proof.
  unfold build, timeit. intros H.
  destruct r as [[u t] | e].
  - apply bind_ok in H as [started [w1 [H1 H]]].
    apply bind_ok in H as [x [w2 [H2 H]]].
    apply bind_ok in H as [now [w3 [H3 H]]].
    inversion H1; subst. inversion H3; subst. inversion H; subst. clear H1 H3 H.
    apply withcwd_ok in H2 as [wm [Hb ->]].
    apply bind_ok in Hb as [u' [wc [Hc Hs]]].
    apply chdir_ok in Hc. subst wc.
    pose proof (steps_world h cmds _ _ _ Hs) as [_ Ht].
    pose proof (steps_ok h cmds _ _ _ Hs) as Htr.
    simpl in *. rewrite Ht, Htr. rewrite <- !app_assoc. auto.
  - apply bind_err in H as [H | [started [w1 [H1 H]]]]; [discriminate |].
    inversion H1; subst. clear H1.
    apply bind_err in H as [H | [x [w2 [_ H]]]].
    + exact (withcwd_err _ (tick w) e w' H).
    + apply bind_err in H as [H | [now [w3 [_ H]]]]; discriminate.
Qed.

(** ** A successful measurement *)

Lemma measure_ok h p project commands w results w1 :
  measure h p project commands w = (Ok results, w1) ->
  let k := ticks w in
  let dir := resolve (cwd w) (join p project) in
  (exists cb cf cd bb bf bd,
      results
      = [(TEST_NAME, VStr project);
         (TEST_PATH, VStr (path_str p));
         (CLONE_TIME, VNum (clock h (1 + k) - clock h k));
         (CLONE_STAT, VNum (clock h (3 + k) - clock h (2 + k)));
         (CLONE_BYTES, VNum cb);
         (CLONE_FILES, VNum cf);
         (CLONE_DIRS, VNum cd);
         (BUILD_TIME, VNum (clock h (5 + k) - clock h (4 + k)));
         (BUILD_STAT, VNum (clock h (7 + k) - clock h (6 + k)));
         (BUILD_BYTES, VNum bb);
         (BUILD_FILES, VNum bf);
         (BUILD_DIRS, VNum bd)])
  /\ cwd w1 = cwd w
  /\ ticks w1 = (8 + k)%nat
  /\ trace w1
     = (trace w
          ++ [EvTime k;
              EvCall ["git"; "clone"; repo commands;
                      path_str (join p project)] (cwd w);
              EvTime (1 + k); EvTime (2 + k); EvTime (3 + k); EvTime (4 + k)]
          ++ map (fun c => EvCall c dir) (cmds commands)
          ++ [EvTime (5 + k); EvTime (6 + k); EvTime (7 + k)])%list.
Proof.
  intros H k dir. unfold measure in H.
  apply bind_ok in H as [[u t] [w2 [Hc H]]].
  apply bind_ok in H as [[[[s f] d] t1] [w3 [Hs1 H]]].
  apply bind_ok in H as [[u' t2] [w4 [Hb H]]].
  apply bind_ok in H as [[[[s' f'] d'] t3] [w5 [Hs2 H]]].
  inversion H; subst results w5. clear H.
  apply clone_ok in Hc as [-> [Hc2 [Hk2 Ht2]]].
  apply statdir_world in Hs1 as [-> ->].
  apply build_inv in Hb as [-> [Hc4 [Hk4 Ht4]]].
  apply statdir_world in Hs2 as [-> ->].
  simpl in Hc4, Hk4, Ht4.
  split; [| split; [| split]].
  - exists s, f, d, s', f', d'. simpl. rewrite Hk4, Hk2. reflexivity.
  - simpl. now rewrite Hc4.
  - simpl. now rewrite Hk4, Hk2.
  - simpl. rewrite Hk4, Ht4, Hc2, Hk2, Ht2. unfold dir, k.
    repeat (rewrite <- app_assoc; simpl). reflexivity.
Qed.

(** ** Persistence and cleanup *)

Lemma string_app_assoc (a b c : string) : (a ++ b) ++ c = a ++ (b ++ c).
Proof. induction a as [| x a IH]; simpl; auto. now rewrite IH. Qed.

Lemma open_append_ok p w loc w' :
  open_append p w = (Ok loc, w') ->
  loc = resolve (cwd w) p
  /\ option_map follow (lookup (fs w') loc) = Some (File (text_before w p))
  /\ cwd w' = cwd w /\ ticks w' = ticks w /\ trace w' = trace w.
Proof.
  unfold open_append, text_before, read_text.
  destruct (stat_of w p) as [[c | es | | lt | sz] |] eqn:E; try discriminate.
  - intros H. inversion H; subst. auto.
  - destruct (write_at (fs w) (resolve (cwd w) p) (File "")) as [f |] eqn:Ew;
      try discriminate.
    intros H. inversion H; subst. simpl.
    rewrite (lookup_write_at _ _ _ _ Ew). auto.
Qed.

Lemma open_append_world p w r w' :
  open_append p w = (r, w') ->
  cwd w' = cwd w /\ ticks w' = ticks w /\ trace w' = trace w.
Proof.
  unfold open_append.
  destruct (stat_of w p) as [[c | es | | lt | sz] |];
    try (intros H; now inversion H).
  destruct (write_at (fs w) (resolve (cwd w) p) (File ""));
    intros H; now inversion H.
Qed.

Lemma open_append_err p w e w' :
  open_append p w = (Err e, w') -> w' = w.
Proof.
  unfold open_append.
  destruct (stat_of w p) as [[c | es | | lt | sz] |];
    try (intros H; now inversion H).
  destruct (write_at (fs w) (resolve (cwd w) p) (File ""));
    intros H; now inversion H.
Qed.

(** A write that raises leaves the world as it was; one that returns has
    appended the text. *)
Lemma file_write_inv h loc text w r w' :
  file_write h loc text w = (r, w') ->
  match r with
  | Ok _ =>
      exists c,
        option_map follow (lookup (fs w) loc) = Some (File c)
        /\ write_error h loc text w = None
        /\ option_map follow (lookup (fs w') loc) = Some (File (c ++ text))
        /\ cwd w' = cwd w /\ ticks w' = ticks w /\ trace w' = trace w
  | Err _ => w' = w
  end.
Proof.
  unfold file_write.
  destruct (lookup (fs w) loc) as [e |] eqn:El;
    [| intros H; now inversion H].
  destruct (follow e) as [c | es | | lt | sz] eqn:Ef;
    try (intros H; now inversion H).
  destruct (write_error h loc text w) as [x |];
    [intros H; now inversion H |].
  destruct (write_at (fs w) loc (rewrap e (File (c ++ text)))) as [f |] eqn:Ew;
    intros H; inversion H; subst; auto.
  exists c. simpl. rewrite Ef, (lookup_write_at _ _ _ _ Ew). simpl.
  now rewrite follow_rewrap.
Qed.

Lemma file_write_ok h loc text w c :
  option_map follow (lookup (fs w) loc) = Some (File c) ->
  write_error h loc text w = None ->
  exists w',
    file_write h loc text w = (Ok tt, w')
    /\ option_map follow (lookup (fs w') loc) = Some (File (c ++ text))
    /\ cwd w' = cwd w /\ ticks w' = ticks w /\ trace w' = trace w.
Proof.
  intros H He. unfold file_write.
  destruct (lookup (fs w) loc) as [e |] eqn:El; [| discriminate].
  simpl in H. injection H as H. rewrite H, He.
  destruct (write_at_present (fs w) loc (rewrap e (File (c ++ text))) _ El)
    as [f Hf].
  rewrite Hf. eexists. split; [reflexivity |]. simpl.
  rewrite (lookup_write_at _ _ _ _ Hf). simpl. now rewrite follow_rewrap.
Qed.

Lemma file_write_refused h loc text w c x :
  option_map follow (lookup (fs w) loc) = Some (File c) ->
  write_error h loc text w = Some x ->
  file_write h loc text w = (Err x, w).
Proof.
  intros H He. unfold file_write.
  destruct (lookup (fs w) loc) as [e |] eqn:El; [| discriminate].
  simpl in H. injection H as H. now rewrite H, He.
Qed.

Lemma fields_are_columns :
  (TEST_RESULTS ++ CLONE_RESULTS ++ BUILD_RESULTS)%list = COLUMNS.
Proof. reflexivity. Qed.

Lemma header_line_is_columns : csv_line COLUMNS = HEADER_LINE.
Proof. reflexivity. Qed.

Lemma writerow_known h loc results :
  known_keys results ->
  writerow h loc COLUMNS results
  = file_write h loc (csv_line (row_of results)).
Proof. intros Hk. unfold writerow. unfold known_keys in Hk. now rewrite Hk. Qed.

Lemma persist_outcome h output header results w1 r w2 :
  known_keys results ->
  persist h output header results w1 = (r, w2) ->
  cwd w2 = cwd w1 /\ ticks w2 = ticks w1 /\ trace w2 = trace w1
  /\ match r with
     | Ok _ =>
         read_text w2 output
         = Some (text_before w1 output
                   ++ (if header then HEADER_LINE else EmptyString)
                   ++ csv_line (row_of results))
     | Err _ => True
     end.
Proof.
  intros Hk H. unfold persist in H. rewrite fields_are_columns in H.
  apply bind_cases in H as [[loc [wa [Eo H]]] | [e [Eo ->]]].
  2:{ apply open_append_world in Eo. tauto. }
  rewrite (writerow_known _ _ _ Hk) in H.
  apply open_append_ok in Eo as [-> [Hl [Hc [Ht Htr]]]].
  assert (Hrow : forall c wb,
             option_map follow (lookup (fs wb) (resolve (cwd w1) output))
             = Some (File c) ->
             cwd wb = cwd w1 -> ticks wb = ticks w1 -> trace wb = trace w1 ->
             file_write h (resolve (cwd w1) output)
               (csv_line (row_of results)) wb = (r, w2) ->
             cwd w2 = cwd w1 /\ ticks w2 = ticks w1 /\ trace w2 = trace w1
             /\ match r with
                | Ok _ =>
                    read_text w2 output = Some (c ++ csv_line (row_of results))
                | Err _ => True
                end).
  { intros c wb Hb Hcb Htb Htrb Hw. apply file_write_inv in Hw.
    destruct r as [u | e].
    - destruct Hw as [c' [Hc' [_ [Hlc [Hcc [Htc Htrc]]]]]].
      rewrite Hb in Hc'. injection Hc' as <-.
      unfold read_text, stat_of. rewrite Hcc, Hcb. simpl. rewrite Hlc.
      repeat split; congruence.
    - subst w2. auto. }
  destruct header.
  - apply bind_cases in H as [[u [wh [Ew H]]] | [e [Ew ->]]];
      unfold writeheader in Ew; apply file_write_inv in Ew.
    + destruct Ew as [c [Hc' [_ [Hlh [Hch [Hth Htrh]]]]]].
      rewrite Hl in Hc'. injection Hc' as <-.
      rewrite header_line_is_columns in Hlh.
      apply Hrow with (c := (text_before w1 output ++ HEADER_LINE))
        in H; try congruence.
      destruct r; auto. now rewrite <- string_app_assoc.
    + subst. auto.
  - unfold bind, ret in H.
    apply Hrow with (c := text_before w1 output) in H; auto.
Qed.

Lemma persist_inv h output header results w1 r w2 :
  known_keys results ->
  persist h output header results w1 = (r, w2) ->
  match r with
  | Ok _ =>
      read_text w2 output
      = Some (text_before w1 output
                ++ (if header then HEADER_LINE else EmptyString)
                ++ csv_line (row_of results))
      /\ cwd w2 = cwd w1 /\ ticks w2 = ticks w1 /\ trace w2 = trace w1
  | Err _ => cwd w2 = cwd w1 /\ ticks w2 = ticks w1 /\ trace w2 = trace w1
  end.
Proof.
  intros Hk H. apply persist_outcome in H; auto.
  destruct r; tauto.
Qed.

Lemma rmtree_ok p w u w' :
  shutil_rmtree p w = (Ok u, w') ->
  remove_at (fs w) (resolve (cwd w) p) = Some (fs w')
  /\ cwd w' = cwd w /\ ticks w' = ticks w
  /\ trace w' = (trace w ++ [EvRmtree (resolve (cwd w) p)])%list.
Proof.
  unfold shutil_rmtree.
  destruct (lookup (fs w) (resolve (cwd w) p)) as [[c | es | | lt | sz] |];
    try discriminate.
  destruct (remove_at (fs w) (resolve (cwd w) p)); try discriminate.
  intros H. inversion H; subst. auto.
Qed.

(** A successful run went through every stage. *)
Lemma run_ok h p project output header w w' :
  run_workload h p project output header w = (Ok tt, w') ->
  exists commands results w1 w2 w3,
    validate p project w = (Ok commands, w)
    /\ measure h p project commands w = (Ok results, w1)
    /\ persist h output header results w1 = (Ok tt, w2)
    /\ shutil_rmtree (join p project) w2 = (Ok tt, w3)
    /\ w' = log (EvPrint results) w3.
Proof.
  rewrite run_workload_stages. intros H.
  apply bind_ok in H as [commands [w0 [Hv H]]].
  pose proof (validate_world _ _ _ _ _ Hv) as ->.
  apply bind_ok in H as [results [w1 [Hm H]]].
  apply bind_ok in H as [[] [w2 [Hp H]]].
  apply bind_ok in H as [[] [w3 [Hr H]]].
  inversion H; subst.
  exists commands, results, w1, w2, w3. auto.
Qed.

Lemma measure_known_keys h p project commands w results w1 :
  measure h p project commands w = (Ok results, w1) -> known_keys results.
Proof.
  intros H. apply measure_ok in H as [[cb [cf [cd [bb [bf [bd ->]]]]]] _].
  reflexivity.
Qed.

(** ** The results file *)

(** C1, as the code has it: a successful run appends exactly one row to
    the results file, its cells being the twelve fields of the record in
    the fixed column order, preceded by the header line when the header is
    requested; on a file that is empty or absent when it is opened, a run
    with the header writes the line of the twelve column names followed by
    that one row.  The file is still so when the run ends provided it does
    not lie in the tree that the cleanup removes; the record is the one
    printed. *)
Theorem C1_one_row_in_column_order h p project output header w w' :
  run_workload h p project output header w = (Ok tt, w') ->
  exists commands results w1 w2,
    projects_get PROJECTS project = Some commands
    /\ measure h p project commands w = (Ok results, w1)
    /\ persist h output header results w1 = (Ok tt, w2)
    /\ (forall k, In k COLUMNS -> exists v, dict_get results k = Some v)
    /\ dict_get results "test name" = Some (VStr project)
    /\ dict_get results "test path" = Some (VStr (path_str p))
    /\ read_text w2 output
       = Some (text_before w1 output
                 ++ (if header then HEADER_LINE else EmptyString)
                 ++ csv_line (row_of results))
    /\ (header = true -> text_before w1 output = EmptyString ->
        read_text w2 output
        = Some (HEADER_LINE ++ csv_line (row_of results)))
    /\ (is_prefix (resolve (cwd w) (join p project)) (resolve (cwd w) output)
        = false ->
        read_text w' output = read_text w2 output)
    /\ printed (trace w') = (printed (trace w) ++ [results])%list.
Proof.
  intros H.
  destruct (run_ok _ _ _ _ _ _ _ H)
    as (commands & results & w1 & w2 & w3 & Hv & Hm & Hp & Hr & ->).
  exists commands, results, w1, w2.
  pose proof (measure_known_keys _ _ _ _ _ _ _ Hm) as Hk.
  pose proof (persist_inv _ _ _ _ _ _ _ Hk Hp) as (Htext & Hc2 & Ht2 & Htr2).
  pose proof (measure_ok _ _ _ _ _ _ _ Hm) as (Hres & Hc1 & Ht1 & Htr1).
  destruct Hres as (cb & cf & cd & bb & bf & bd & Hres).
  apply rmtree_ok in Hr as (Hrm & Hc3 & Ht3 & Htr3).
  split; [exact (proj2 (validate_ok _ _ _ _ _ Hv)) |].
  split; [exact Hm |]. split; [exact Hp |].
  split.
  { intros k Hin. rewrite Hres. simpl in Hin.
    repeat (destruct Hin as [<- | Hin]; [eexists; reflexivity |]).
    destruct Hin. }
  split; [now rewrite Hres |]. split; [now rewrite Hres |].
  split; [exact Htext |].
  split.
  { intros -> Hfresh. now rewrite Htext, Hfresh. }
  split.
  { intros Hpre. unfold read_text, stat_of. simpl.
    rewrite Hc3, Hc2, Hc1 in *.
    apply (remove_at_elsewhere _ _ _ _ Hrm Hpre). }
  simpl. rewrite printed_app, Htr3, printed_app, Htr2. simpl.
  rewrite app_nil_r.
  now rewrite (proj2 (quietly_cleanups _ _ (quiet_measure _ _ _ _ _ _ _ Hm))).
Qed.

Lemma C1_one_row_in_column_order_witness :
  let w' := snd (run_workload (demo_host 0) (Abs ["t"]) "redis"
                   (Rel ["results.csv"]) true demo_world) in
  run_workload (demo_host 0) (Abs ["t"]) "redis" (Rel ["results.csv"]) true
    demo_world = (Ok tt, w')
  /\ read_text w' (Rel ["results.csv"])
     = Some (HEADER_LINE
               ++ csv_line ["redis"; "/t"; "7"; "7"; "7"; "45"; "2"; "3";
                            "7"; "48"; "3"; "3"]).
Proof.
  intros w'.
  assert (Hrun : run_workload (demo_host 0) (Abs ["t"]) "redis"
                   (Rel ["results.csv"]) true demo_world = (Ok tt, w'))
    by (vm_compute; reflexivity).
  split; [exact Hrun |].
  destruct (C1_one_row_in_column_order _ _ _ _ _ _ _ Hrun)
    as (commands & results & w1 & w2 & Hg & Hm & _ & _ & _ & _ & _
        & Hfresh & Hfinal & _).
  assert (Ec : projects_get PROJECTS "redis" = Some redis_definition)
    by (vm_compute; reflexivity).
  rewrite Ec in Hg. injection Hg as <-.
  assert (Em : measure (demo_host 0) (Abs ["t"]) "redis" redis_definition
                 demo_world = demo_measured)
    by (vm_compute; reflexivity).
  rewrite Em in Hm. unfold demo_measured in Hm. injection Hm as <- <-.
  rewrite Hfinal by (vm_compute; reflexivity).
  rewrite Hfresh by (vm_compute; reflexivity).
  vm_compute. reflexivity.
Defined.

(** With the results file placed inside the tree to be cloned, the run
    succeeds on a file that did not exist before, and no results file is
    left: the cleanup has removed it with the clone. *)
Lemma C1_counterexample :
  let out := Abs ["t"; "redis"; "results.csv"] in
  let w' := snd (run_workload (demo_host 0) (Abs ["t"]) "redis" out true
                   demo_world) in
  stat_of demo_world out = None
  /\ run_workload (demo_host 0) (Abs ["t"]) "redis" out true demo_world
     = (Ok tt, w')
  /\ read_text w' out = None
  /\ stat_of w' out = None.
Proof.
  intros out w'.
  split; [| split; [| split]]; vm_compute; reflexivity.
Qed.

(** ** Cleanup *)

Lemma filter_not_self x :
  filter (fun k => negb (String.eqb k x)) [x] = [].
Proof. simpl. now rewrite String.eqb_refl. Qed.

(** C3, as the code has it: after a successful run the cloned tree
    [p/project] is gone, and the target directory holds what it held just
    before the cleanup, less the entry [project]; it is empty again, and
    passes validation again, when the clone was its only entry then.  When
    the measurement stage raises, the error propagates from the world that
    stage left, no removal having been attempted. *)
Theorem C3_cleanup_after_success h p project output header w :
  (forall w',
      run_workload h p project output header w = (Ok tt, w') ->
      exists commands results w1 w2 names,
        measure h p project commands w = (Ok results, w1)
        /\ persist h output header results w1 = (Ok tt, w2)
        /\ listing w2 p = Some names
        /\ stat_of w' (join p project) = None
        /\ listing w' p
           = Some (filter (fun k => negb (String.eqb k project)) names)
        /\ cleanups (trace w')
           = (cleanups (trace w) ++ [resolve (cwd w) (join p project)])%list
        /\ (names = [project] ->
            listing w' p = Some []
            /\ validate p project w' = (Ok commands, w')))
  /\ (forall commands e w1,
        listing w p = Some [] ->
        projects_get PROJECTS project = Some commands ->
        measure h p project commands w = (Err e, w1) ->
        run_workload h p project output header w = (Err e, w1)
        /\ cleanups (trace w1) = cleanups (trace w)).
Proof.
  split.
  - intros w' H.
    destruct (run_ok _ _ _ _ _ _ _ H)
      as (commands & results & w1 & w2 & w3 & Hv & Hm & Hp & Hr & ->).
    pose proof (measure_known_keys _ _ _ _ _ _ _ Hm) as Hk.
    pose proof (persist_inv _ _ _ _ _ _ _ Hk Hp) as (_ & Hc2 & _ & Htr2).
    pose proof (measure_ok _ _ _ _ _ _ _ Hm) as (_ & Hc1 & _ & _).
    pose proof (quietly_cleanups _ _ (quiet_measure _ _ _ _ _ _ _ Hm))
      as [Hcl _].
    apply rmtree_ok in Hr as (Hrm & Hc3 & _ & Htr3).
    rewrite resolve_join in Hrm.
    destruct (remove_at_parent _ _ _ _ Hrm) as (es & Hl & Hl' & Hgone).
    assert (Hlist : listing (log (EvPrint results) w3) p
                    = Some (filter (fun k => negb (String.eqb k project))
                              (map fst es))).
    { unfold listing, stat_of. simpl. rewrite Hc3, Hl'.
      now rewrite map_fst_remove_entry. }
    exists commands, results, w1, w2, (map fst es).
    split; [exact Hm |]. split; [exact Hp |].
    split; [unfold listing, stat_of; now rewrite Hl |].
    split.
    { unfold stat_of. simpl. now rewrite resolve_join, Hc3, Hgone. }
    split; [exact Hlist |].
    split.
    { simpl. rewrite cleanups_app, Htr3, cleanups_app, Htr2, Hcl. simpl.
      now rewrite app_nil_r, Hc2, Hc1. }
    intros Hn. rewrite Hn, filter_not_self in Hlist.
    split; [exact Hlist |].
    rewrite (validate_empty_target _ _ _ Hlist).
    now rewrite (proj2 (validate_ok _ _ _ _ _ Hv)).
  - intros commands e w1 Hl Hg Hm.
    split.
    + rewrite run_workload_stages.
      erewrite bind_step
        by (rewrite (validate_empty_target _ _ _ Hl), Hg; reflexivity).
      now apply bind_fail.
    + exact (proj1 (quietly_cleanups _ _
                      (quiet_measure _ _ _ _ _ _ _ Hm))).
Qed.

Lemma C3_cleanup_after_success_witness :
  let w' := snd (run_workload (demo_host 0) (Abs ["t"]) "redis"
                   (Rel ["results.csv"]) true demo_world) in
  let w1 := snd (measure no_make_host (Abs ["t"]) "redis" redis_definition
                   demo_world) in
  (run_workload (demo_host 0) (Abs ["t"]) "redis" (Rel ["results.csv"]) true
     demo_world = (Ok tt, w')
   /\ stat_of w' (Abs ["t"; "redis"]) = None
   /\ cleanups (trace w') = [["t"; "redis"]])
  /\ (measure no_make_host (Abs ["t"]) "redis" redis_definition demo_world
      = (Err (OSError "No such file or directory"), w1)
      /\ run_workload no_make_host (Abs ["t"]) "redis" (Rel ["results.csv"])
           true demo_world
         = (Err (OSError "No such file or directory"), w1)
      /\ cleanups (trace w1) = []
      /\ stat_of w1 (Abs ["t"; "redis"]) = Some demo_tree).
Proof.
  intros w' w1.
  assert (Hrun : run_workload (demo_host 0) (Abs ["t"]) "redis"
                   (Rel ["results.csv"]) true demo_world = (Ok tt, w'))
    by (vm_compute; reflexivity).
  assert (Hm : measure no_make_host (Abs ["t"]) "redis" redis_definition
                 demo_world
               = (Err (OSError "No such file or directory"), w1))
    by (vm_compute; reflexivity).
  split.
  - destruct (proj1 (C3_cleanup_after_success (demo_host 0) (Abs ["t"])
                       "redis" (Rel ["results.csv"]) true demo_world)
                w' Hrun)
      as (commands & results & v1 & v2 & names & _ & _ & _ & Hgone & _
          & Hcl & _).
    split; [exact Hrun |]. split; [exact Hgone | exact Hcl].
  - assert (Hl : listing demo_world (Abs ["t"]) = Some [])
      by (vm_compute; reflexivity).
    assert (Hg : projects_get PROJECTS "redis" = Some redis_definition)
      by (vm_compute; reflexivity).
    destruct (proj2 (C3_cleanup_after_success no_make_host (Abs ["t"])
                       "redis" (Rel ["results.csv"]) true demo_world)
                redis_definition _ w1 Hl Hg Hm)
      as [Hr Hcl].
    split; [exact Hm |]. split; [exact Hr |]. split; [exact Hcl |].
    vm_compute. reflexivity.
Defined.

(** The claim as the specification words it fails when the results file
    lies in the target directory: the run succeeds, the clone is removed,
    and the target directory still holds the results file, so that the
    next run is refused. *)
Lemma C3_counterexample :
  let w' := snd (run_workload (demo_host 0) (Abs ["t"]) "redis"
                   (Abs ["t"; "results.csv"]) false demo_world) in
  listing demo_world (Abs ["t"]) = Some []
  /\ run_workload (demo_host 0) (Abs ["t"]) "redis"
       (Abs ["t"; "results.csv"]) false demo_world = (Ok tt, w')
  /\ listing w' (Abs ["t"]) = Some ["results.csv"]
  /\ run_workload (demo_host 0) (Abs ["t"]) "redis"
       (Abs ["t"; "results.csv"]) false w'
     = (Err (NonEmptyTargetError (Abs ["t"])), w').
Proof.
  intros w'.
  split; [| split; [| split]]; vm_compute; reflexivity.
Qed.

(** ** The build phase *)



(** ** Exit statuses *)

Section Status.

Variable st : list string -> world -> Z.
Variable h : host.

Lemma step_status cmd w :
  (call (with_status st h) cmd ;;; ret tt) w = (call h cmd ;;; ret tt) w.
Proof.
  unfold bind, call, ret. simpl.
  destruct (spawn h cmd w) as [[f s] | e]; reflexivity.
Qed.

Lemma sum_of_status root files w :
  sum_of (fun name => getsize (with_status st h) (join root name)) files w
  = sum_of (fun name => getsize h (join root name)) files w.
Proof.
  revert w. induction files as [| x r IH]; intros w; [reflexivity |].
  cbn [sum_of].
  apply bind_ext; [reflexivity |]. intros a w1.
  apply bind_ext; [apply IH | reflexivity].
Qed.

Lemma statdir_loop_status triples : forall acc w,
  statdir_loop (with_status st h) triples acc w
  = statdir_loop h triples acc w.
Proof.
  induction triples as [| [[root dirs] files] r IH]; intros [[b f] d] w;
    [reflexivity |].
  cbn [statdir_loop].
  apply bind_ext; [apply sum_of_status |]. intros s w1. apply IH.
Qed.

Lemma statdir_status p w :
  statdir (with_status st h) p w = statdir h p w.
Proof.
  unfold statdir, timeit.
  apply bind_ext; [reflexivity |]. intros started w1.
  apply bind_ext; [| reflexivity].
  apply bind_ext; [reflexivity |]. intros triples w2.
  apply statdir_loop_status.
Qed.

Lemma clone_status r p w :
  clone (with_status st h) r p w = clone h r p w.
Proof.
  unfold clone, timeit.
  apply bind_ext; [reflexivity |]. intros started w1.
  apply bind_ext; [apply step_status | reflexivity].
Qed.

Lemma steps_status cmds : forall w,
  for_each (fun cmd => call (with_status st h) cmd ;;; ret tt) cmds w
  = for_each (fun cmd => call h cmd ;;; ret tt) cmds w.
Proof.
  induction cmds as [| c r IH]; intros w; [reflexivity |].
  cbn [for_each].
  apply bind_ext; [apply step_status |]. intros _ w1. apply IH.
Qed.

Lemma build_status cmds p w :
  build (with_status st h) cmds p w = build h cmds p w.
Proof.
  unfold build, timeit.
  apply bind_ext; [reflexivity |]. intros started w1.
  apply bind_ext; [| reflexivity].
  unfold withcwd.
  apply bind_ext; [reflexivity |]. intros cwd0 w2.
  unfold try_finally.
  assert (E : (os_chdir p ;;;
               for_each (fun cmd => call (with_status st h) cmd ;;; ret tt)
                 cmds) w2
              = (os_chdir p ;;;
                 for_each (fun cmd => call h cmd ;;; ret tt) cmds) w2).
  { apply bind_ext; [reflexivity |]. intros _ w3. apply steps_status. }
  now rewrite E.
Qed.

Lemma measure_status p project commands w :
  measure (with_status st h) p project commands w
  = measure h p project commands w.
Proof.
  unfold measure.
  apply bind_ext; [apply clone_status |]. intros [u t] w1.
  apply bind_ext; [apply statdir_status |]. intros [[[s f] d] t1] w2.
  apply bind_ext; [apply build_status |]. intros [u' t2] w3.
  apply bind_ext; [apply statdir_status |]. intros [[[s' f'] d'] t3] w4.
  reflexivity.
Qed.

End Status.

(** C7, as the code has it: the exit status of a launched program is
    discarded.  Whatever statuses the children exit with, [run_workload]
    ends the same way in the same world as with children that do the same
    to the file system and exit with other statuses: whenever the one run
    appends a row, removes the clone and prints the record, so does the
    other.  What a failed child did not do can still make a later stage
    raise. *)
Theorem C7_exit_status_ignored st h p project output header w :
  run_workload (with_status st h) p project output header w
  = run_workload h p project output header w.
Proof.
  rewrite !run_workload_stages.
  apply bind_ext; [reflexivity |]. intros commands w0.
  apply bind_ext; [apply measure_status | reflexivity].
Qed.

(** A clone that exits with a non-zero status without creating the
    directory: the status is ignored, the clone is timed and the target
    is walked, then the build stage raises when it changes directory;
    no row is written and nothing is printed. *)
Lemma C7_counterexample :
  let w' := snd (run_workload broken_git_host (Abs ["t"]) "redis"
                   (Rel ["results.csv"]) true demo_world) in
  spawn broken_git_host
    ["git"; "clone"; "git@github.com:antirez/redis.git"; "/t/redis"]
    (tick demo_world) = Ok (fs demo_world, 128)
  /\ run_workload broken_git_host (Abs ["t"]) "redis" (Rel ["results.csv"])
       true demo_world = (Err (OSError "chdir"), w')
  /\ stat_of w' (Rel ["results.csv"]) = None
  /\ printed (trace w') = [].
Proof.
  intros w'.
  split; [| split; [| split]]; vm_compute; reflexivity.
Qed.

(** With every child exiting with status 1 the run still completes. *)
Example failing_children_complete :
  exists w' results,
    run_workload (with_status (fun _ _ => 1) (demo_host 0)) (Abs ["t"])
      "redis" (Rel ["results.csv"]) true demo_world = (Ok tt, w')
    /\ printed (trace w') = [results]
    /\ read_text w' (Rel ["results.csv"])
       = Some (HEADER_LINE ++ csv_line (row_of results))
    /\ cleanups (trace w') = [["t"; "redis"]].
Proof.
  eexists. eexists.
  split; [vm_compute; reflexivity |].
  split; [vm_compute; reflexivity |].
  split; vm_compute; reflexivity.
Qed.

(** ** The working directory *)





(** ** Failure to persist *)

(** C10: when the measurement succeeds and the results file cannot be
    opened, or a write to it raises, the error propagates from the world
    the [with] block left, which differs from the one the measurement left
    at most by what has been written: no removal has been attempted and
    nothing has been printed. *)
Theorem C10_persistence_failure h p project output header w
  commands results w1 e w2 :
  listing w p = Some [] ->
  projects_get PROJECTS project = Some commands ->
  measure h p project commands w = (Ok results, w1) ->
  persist h output header results w1 = (Err e, w2) ->
  run_workload h p project output header w = (Err e, w2)
  /\ cwd w2 = cwd w1 /\ ticks w2 = ticks w1 /\ trace w2 = trace w1
  /\ cleanups (trace w2) = cleanups (trace w)
  /\ printed (trace w2) = printed (trace w).
Proof.
  intros Hl Hg Hm Hp.
  pose proof (measure_known_keys _ _ _ _ _ _ _ Hm) as Hk.
  pose proof (persist_inv _ _ _ _ _ _ _ Hk Hp) as (Hc & Ht & Htr).
  split; [| split; [exact Hc | split; [exact Ht | split; [exact Htr |]]]].
  - rewrite run_workload_stages.
    erewrite bind_step
      by (rewrite (validate_empty_target _ _ _ Hl), Hg; reflexivity).
    erewrite bind_step by exact Hm.
    now apply bind_fail.
  - rewrite Htr.
    exact (quietly_cleanups _ _ (quiet_measure _ _ _ _ _ _ _ Hm)).
Qed.

Lemma C10_persistence_failure_witness :
  (run_workload (demo_host 0) (Abs ["t"]) "redis"
     (Abs ["nowhere"; "results.csv"]) true demo_world
   = (Err (OSError "open"), snd demo_measured)
   /\ stat_of (snd demo_measured) (Abs ["t"; "redis"; "redis-server"])
      = Some (File "ELF")
   /\ cleanups (trace (snd demo_measured)) = []
   /\ printed (trace (snd demo_measured)) = [])
  /\ (run_workload full_disk_host (Abs ["t"]) "redis"
        (Rel ["results.csv"]) true demo_world
      = (Err (OSError "No space left on device"), full_disk_persisted)
      /\ read_text full_disk_persisted (Rel ["results.csv"]) = Some EmptyString
      /\ stat_of full_disk_persisted (Abs ["t"; "redis"; "redis-server"])
         = Some (File "ELF")
      /\ cleanups (trace full_disk_persisted) = []
      /\ printed (trace full_disk_persisted) = []).
Proof.
  assert (Hl : listing demo_world (Abs ["t"]) = Some [])
    by (vm_compute; reflexivity).
  assert (Hg : projects_get PROJECTS "redis" = Some redis_definition)
    by (vm_compute; reflexivity).
  assert (Hm : measure (demo_host 0) (Abs ["t"]) "redis" redis_definition
                 demo_world
               = (Ok demo_record, snd demo_measured))
    by (vm_compute; reflexivity).
  assert (Hp : persist (demo_host 0) (Abs ["nowhere"; "results.csv"]) true
                 demo_record (snd demo_measured)
               = (Err (OSError "open"), snd demo_measured))
    by (vm_compute; reflexivity).
  assert (Hm' : measure full_disk_host (Abs ["t"]) "redis" redis_definition
                  demo_world
                = (Ok demo_record, snd demo_measured))
    by (vm_compute; reflexivity).
  assert (Hp' : persist full_disk_host (Rel ["results.csv"]) true
                  demo_record (snd demo_measured)
                = (Err (OSError "No space left on device"),
                   full_disk_persisted))
    by (vm_compute; reflexivity).
  destruct (C10_persistence_failure (demo_host 0) (Abs ["t"]) "redis"
              (Abs ["nowhere"; "results.csv"]) true demo_world
              redis_definition demo_record (snd demo_measured)
              (OSError "open") (snd demo_measured) Hl Hg Hm Hp)
    as (Hrun & _ & _ & _ & Hcl & Hpr).
  destruct (C10_persistence_failure full_disk_host (Abs ["t"]) "redis"
              (Rel ["results.csv"]) true demo_world
              redis_definition demo_record (snd demo_measured)
              (OSError "No space left on device") full_disk_persisted
              Hl Hg Hm' Hp')
    as (Hrun' & _ & _ & _ & Hcl' & Hpr').
  split; [split; [exact Hrun | split; [| split; [exact Hcl | exact Hpr]]]
         | split; [exact Hrun' | split; [| split; [| split;
                                                     [exact Hcl' | exact Hpr']]]]];
    vm_compute; reflexivity.
Defined.

(** * Further properties of the script *)

(** ** [timeit] *)

(** [timeit] reads the clock once before the call; when the function
    returns it reads it once more and returns the result with the
    difference of the two readings, which is not negative when the clock
    does not run backwards; when the function raises, the exception
    propagates from the world the function left, no second reading being
    taken. *)
Theorem timeit_outcome h {A} (func : M A) w :
  (forall a w1,
      func (tick w) = (Ok a, w1) ->
      timeit h func w
      = (Ok (a, clock h (ticks w1) - clock h (ticks w)), tick w1)
      /\ (monotone (clock h) -> (ticks w <= ticks w1)%nat ->
          0 <= clock h (ticks w1) - clock h (ticks w)))
  /\ (forall e w1,
         func (tick w) = (Err e, w1) -> timeit h func w = (Err e, w1)).
Proof.
  split.
  - intros a w1 H. split.
    + unfold timeit, bind, time_time, ret. now rewrite H.
    + intros Hm Hle. specialize (Hm _ _ Hle). lia.
  - intros e w1 H. unfold timeit, bind, time_time. now rewrite H.
Qed.

Lemma timeit_outcome_witness :
  (os_chdir (Abs ["t"]) (tick demo_world)
   = (Ok tt, set_cwd ["t"] (tick demo_world))
   /\ timeit (demo_host 0) (os_chdir (Abs ["t"])) demo_world
      = (Ok (tt, 7), tick (set_cwd ["t"] (tick demo_world)))
   /\ 0 <= 7)
  /\ (os_chdir (Abs ["missing"]) (tick demo_world)
      = (Err (OSError "chdir"), tick demo_world)
      /\ timeit (demo_host 0) (os_chdir (Abs ["missing"])) demo_world
         = (Err (OSError "chdir"), tick demo_world)).
Proof.
  assert (H1 : os_chdir (Abs ["t"]) (tick demo_world)
               = (Ok tt, set_cwd ["t"] (tick demo_world)))
    by (vm_compute; reflexivity).
  assert (H2 : os_chdir (Abs ["missing"]) (tick demo_world)
               = (Err (OSError "chdir"), tick demo_world))
    by (vm_compute; reflexivity).
  destruct (timeit_outcome (demo_host 0) (os_chdir (Abs ["t"])) demo_world)
    as [Hok _].
  destruct (timeit_outcome (demo_host 0) (os_chdir (Abs ["missing"]))
              demo_world) as [_ Herr].
  destruct (Hok _ _ H1) as [Hrun Hpos].
  split; [split; [exact H1 | split] | split; [exact H2 |]].
  - exact Hrun.
  - apply Hpos; [apply demo_clock_monotone | simpl; lia].
  - exact (Herr _ _ H2).
Defined.

(** ** [statdir] beyond readable trees *)

Lemma launched_app a b : launched (a ++ b) = (launched a ++ launched b)%list.
Proof.
  induction a as [| e r IH]; simpl; auto.
  destruct e; simpl; auto. now rewrite IH.
Qed.

(** [statdir] only reads: however it ends, the file system and the working
    directory are as before, no program has been launched, nothing removed
    and nothing printed. *)
Theorem statdir_reads_only h p w :
  let w' := snd (statdir h p w) in
  fs w' = fs w /\ cwd w' = cwd w
  /\ launched (trace w') = launched (trace w)
  /\ cleanups (trace w') = cleanups (trace w)
  /\ printed (trace w') = printed (trace w).
Proof.
  intros w'. subst w'.
  destruct (statdir h p w) as [r w'] eqn:E.
  pose proof (statdir_world _ _ _ _ _ E) as H.
  assert (Hw : w' = tick (tick w) \/ w' = tick w).
  { destruct r as [[x t] | e]; [left; tauto | now right]. }
  simpl. destruct Hw as [-> | ->]; simpl;
    rewrite ?launched_app, ?cleanups_app, ?printed_app; simpl;
    rewrite ?app_nil_r; auto.
Qed.

(** On a path that does not name a directory (nothing there, a regular
    file, a dangling link) [statdir] does not raise: the walk yields
    nothing and the totals are 0. *)
Theorem statdir_not_a_directory h p w :
  os_path_isdir w p = false ->
  statdir h p w
  = (Ok ((0, 0, 0), clock h (S (ticks w)) - clock h (ticks w)),
     tick (tick w)).
Proof.
  intros H. rewrite statdir_run. unfold os_walk.
  unfold os_path_isdir in H.
  destruct (stat_of w p) as [[c | es | | lt | sz] |]; try discriminate; reflexivity.
Qed.

Lemma statdir_not_a_directory_witness :
  os_path_isdir demo_world (Abs ["t"; "redis"]) = false
  /\ statdir (demo_host 0) (Abs ["t"; "redis"]) demo_world
     = (Ok ((0, 0, 0), 7), tick (tick demo_world)).
Proof.
  assert (H : os_path_isdir demo_world (Abs ["t"; "redis"]) = false)
    by (vm_compute; reflexivity).
  split; [exact H |].
  exact (statdir_not_a_directory (demo_host 0) (Abs ["t"; "redis"])
           demo_world H).
Defined.

Section Unreadable.

Variable h : host.






End Unreadable.




Section Totals.

Variable h : host.

Lemma getsize_nonneg p w z w' :
  0 <= st_size_dir h -> getsize h p w = (Ok z, w') -> 0 <= z.
Proof.
  intros Hd. unfold getsize, size_of.
  destruct (stat_of w p) as [n |]; [| discriminate].
  destruct (follow n); intros H; inversion H; subst; lia.
Qed.

Lemma sum_of_getsize_nonneg root files : forall w s w',
  0 <= st_size_dir h ->
  sum_of (fun name => getsize h (join root name)) files w = (Ok s, w') ->
  0 <= s.
Proof.
  induction files as [| x r IH]; intros w s w' Hd; simpl.
  - intros H. inversion H. lia.
  - intros H. apply bind_ok in H as (z & w1 & Hz & H).
    apply bind_ok in H as (s' & w2 & Hs & H). inversion H; subst.
    apply getsize_nonneg in Hz; auto. apply IH in Hs; auto. lia.
Qed.

Lemma statdir_loop_nonneg triples : forall b f d w b' f' d' w',
  0 <= st_size_dir h ->
  0 <= b -> 0 <= f -> 0 <= d ->
  statdir_loop h triples (b, f, d) w = (Ok (b', f', d'), w') ->
  0 <= b' /\ 0 <= f' /\ 0 <= d'.
Proof.
  induction triples as [| [[root dirs] files] r IH];
    intros b f d w b' f' d' w' Hd Hb Hf Hdd; simpl.
  - intros H. inversion H; subst. auto.
  - intros H. apply bind_ok in H as (s & w1 & Hs & H).
    apply sum_of_getsize_nonneg in Hs; auto.
    apply IH in H; auto; lia.
Qed.

End Totals.

Lemma statdir_ok_nonneg h p w b f d t w' :
  0 <= st_size_dir h ->
  statdir h p w = (Ok ((b, f, d), t), w') ->
  0 <= b /\ 0 <= f /\ 0 <= d.
Proof.
  intros Hd. rewrite statdir_run.
  destruct (statdir_loop h (os_walk w p) (0, 0, 0) (tick w))
    as [[[[b' f'] d'] | e] w1] eqn:E; intros H; inversion H; subst.
  apply (statdir_loop_nonneg h _ 0 0 0 _ _ _ _ _ Hd) in E; auto; lia.
Qed.

(** The totals that [statdir] returns are never negative (the file system
    reporting no negative size for a directory). *)
Theorem statdir_totals_nonneg h p w b f d t w' :
  0 <= st_size_dir h ->
  statdir h p w = (Ok ((b, f, d), t), w') ->
  0 <= b /\ 0 <= f /\ 0 <= d.
Proof. apply statdir_ok_nonneg. Qed.

Lemma statdir_totals_nonneg_witness :
  0 <= st_size_dir (demo_host 0)
  /\ statdir (demo_host 0) (Abs ["t"]) cloned_world
     = (Ok ((45, 2, 3), 7), tick (tick cloned_world))
  /\ 0 <= 45 /\ 0 <= 2 /\ 0 <= 3.
Proof.
  assert (Hd : 0 <= st_size_dir (demo_host 0)) by (simpl; lia).
  assert (Hs : statdir (demo_host 0) (Abs ["t"]) cloned_world
               = (Ok ((45, 2, 3), 7), tick (tick cloned_world)))
    by (vm_compute; reflexivity).
  split; [exact Hd |]. split; [exact Hs |].
  exact (statdir_totals_nonneg _ _ _ _ _ _ _ _ Hd Hs).
Defined.



(** ** [clone] and [build] beyond the successful case *)

(** [clone] launches exactly one program, [git clone repo path], from the
    working directory, which it leaves as it is; it raises exactly when
    the launch itself fails, and otherwise returns the elapsed time and
    leaves the file system as the program left it, whatever its exit
    status. *)
Theorem clone_launches_once h r p w :
  let cmd := ["git"; "clone"; r; path_str p] in
  let out := clone h r p w in
  launched (trace (snd out)) = (launched (trace w) ++ [(cmd, cwd w)])%list
  /\ cwd (snd out) = cwd w
  /\ (forall e, spawn h cmd (tick w) = Err e -> fst out = Err e)
  /\ (forall f st,
         spawn h cmd (tick w) = Ok (f, st) ->
         fst out = Ok (tt, clock h (S (ticks w)) - clock h (ticks w))
         /\ fs (snd out) = f).
Proof.
  intros cmd out. subst out.
  unfold clone, timeit, bind, time_time, call, ret. fold cmd.
  destruct (spawn h cmd (tick w)) as [[f st] | e]; simpl;
    rewrite !launched_app; simpl; rewrite !app_nil_r.
  - split; [reflexivity |]. split; [reflexivity |].
    split; [intros e' He; discriminate |].
    intros f' st' Hs. inversion Hs; subst. split; reflexivity.
  - split; [reflexivity |]. split; [reflexivity |].
    split; [| intros f' st' Hs; discriminate].
    intros e' He. now inversion He.
Qed.

Lemma clone_launches_once_witness :
  let cmd := ["git"; "clone"; "git@github.com:antirez/redis.git"; "/t/redis"] in
  let out := clone (demo_host 3) "git@github.com:antirez/redis.git"
               (Abs ["t"; "redis"]) demo_world in
  spawn (demo_host 3) cmd (tick demo_world)
  = Ok (Dir [("home", Dir []); ("t", Dir [("redis", demo_tree)])], 3)
  /\ fst out = Ok (tt, 7)
  /\ launched (trace (snd out)) = [(cmd, ["home"])]
  /\ spawn no_make_host ["git"; "clone"; "r"; "/x"] (tick demo_world)
     = Ok (Dir [("home", Dir []); ("t", Dir [("redis", demo_tree)])], 0).
Proof.
  intros cmd out.
  assert (Hs : spawn (demo_host 3) cmd (tick demo_world)
               = Ok (Dir [("home", Dir []);
                          ("t", Dir [("redis", demo_tree)])], 3))
    by (vm_compute; reflexivity).
  destruct (clone_launches_once (demo_host 3)
              "git@github.com:antirez/redis.git" (Abs ["t"; "redis"])
              demo_world) as (Hl & _ & _ & Hok).
  split; [exact Hs |].
  split; [exact (proj1 (Hok _ _ Hs)) |].
  split; [exact Hl | vm_compute; reflexivity].
Defined.

(** When its directory does not exist, [build] raises after its first
    clock reading: no step has been launched and the working directory has
    not moved. *)
Theorem build_missing_directory h cmds p w :
  os_path_isdir w p = false ->
  exists msg, build h cmds p w = (Err (OSError msg), tick w).
Proof.
  intros H.
  assert (Ht : forall q, stat_of (tick w) q = stat_of w q) by reflexivity.
  unfold build, timeit, withcwd, try_finally, bind, time_time, os_getcwd,
    os_chdir, os_path_isdir in *.
  rewrite !Ht. change (cwd (tick w)) with (cwd w).
  destruct (stat_of w (Abs (cwd w))) as [[c | es | | lt | sz] |] eqn:E1; eauto.
  rewrite (Ht p).
  destruct (stat_of w p) as [[c' | es' | | lt' | sz'] |] eqn:E2;
    try discriminate; cbv iota; rewrite (Ht (Abs (cwd w))), E1; eauto.
Qed.

Lemma build_missing_directory_witness :
  os_path_isdir demo_world (Abs ["t"; "redis"]) = false
  /\ build (demo_host 0) [["make"]] (Abs ["t"; "redis"]) demo_world
     = (Err (OSError "chdir"), tick demo_world).
Proof.
  assert (H : os_path_isdir demo_world (Abs ["t"; "redis"]) = false)
    by (vm_compute; reflexivity).
  split; [exact H |].
  destruct (build_missing_directory (demo_host 0) [["make"]]
              (Abs ["t"; "redis"]) demo_world H) as [msg Hb].
  rewrite Hb. vm_compute in Hb. now inversion Hb.
Defined.

Lemma steps_trace h cmds : forall w r w',
  for_each (fun cmd => call h cmd ;;; ret tt) cmds w = (r, w') ->
  exists n,
    (n <= List.length cmds)%nat
    /\ trace w'
       = (trace w ++ map (fun c => EvCall c (cwd w)) (firstn n cmds))%list.
Proof.
  induction cmds as [| c rest IH]; intros w r w'; simpl.
  - inversion 1. exists 0%nat. simpl. now rewrite app_nil_r.
  - unfold bind at 1. unfold bind at 1. unfold call, ret.
    destruct (spawn h c w) as [[f st] | e].
    + intros H. apply IH in H as (n & Hn & Ht). simpl in Ht.
      exists (S n). split; [lia |]. rewrite Ht. simpl.
      now rewrite <- app_assoc.
    + inversion 1. exists 1%nat. split; [lia |]. reflexivity.
Qed.

Lemma withcwd_cases {A} (m : M A) w r w' :
  withcwd m w = (r, w') ->
  w' = w
  \/ exists r1 wm, m w = (r1, wm) /\ (w' = wm \/ w' = set_cwd (cwd w) wm).
Proof.
  unfold withcwd, bind, os_getcwd, try_finally, os_chdir.
  destruct (stat_of w (Abs (cwd w))) as [[c | es | | lt | sz] |];
    try (intros H; inversion H; now left).
  destruct (m w) as [r1 wm]. right. exists r1, wm. split; [reflexivity |].
  destruct (stat_of wm (Abs (cwd w))) as [[c' | es' | | lt' | sz'] |];
    inversion H; auto.
Qed.

(** When [build] raises, the steps launched so far are the first ones of
    the list, in order, each from the project directory; the steps after
    the failure are never launched and no second clock reading is taken. *)
Theorem build_failure_prefix h cmds p w e w' :
  build h cmds p w = (Err e, w') ->
  exists n,
    (n <= List.length cmds)%nat
    /\ trace w'
       = (trace w ++ EvTime (ticks w)
            :: map (fun c => EvCall c (resolve (cwd w) p)) (firstn n cmds))%list.
Proof.
  unfold build, timeit. intros H.
  apply bind_err in H as [H | (started & w1 & H1 & H)]; [discriminate |].
  inversion H1; subst. clear H1.
  apply bind_err in H as [H | (x & w2 & _ & H)].
  2:{ apply bind_err in H as [H | (now & w3 & _ & H)]; discriminate. }
  assert (Hnone : exists n,
             (n <= List.length cmds)%nat
             /\ trace (tick w)
                = (trace w ++ EvTime (ticks w)
                     :: map (fun c => EvCall c (resolve (cwd w) p))
                          (firstn n cmds))%list).
  { exists 0%nat. split; [lia | reflexivity]. }
  apply withcwd_cases in H as [-> | (r1 & wm & Hb & Hw)]; [exact Hnone |].
  assert (Hm : exists n,
             (n <= List.length cmds)%nat
             /\ trace wm
                = (trace w ++ EvTime (ticks w)
                     :: map (fun c => EvCall c (resolve (cwd w) p))
                          (firstn n cmds))%list).
  { unfold bind in Hb.
    destruct (os_chdir p (tick w)) as [[u | e1] wc] eqn:Ec.
    - apply chdir_ok in Ec. subst wc.
      apply steps_trace in Hb as (n & Hn & Ht). simpl in Ht.
      exists n. split; [exact Hn |]. rewrite Ht. now rewrite <- app_assoc.
    - inversion Hb; subst. unfold os_chdir in Ec.
      destruct (stat_of (tick w) p) as [[c | es | | lt | sz] |]; inversion Ec; subst;
        exact Hnone. }
  destruct Hw as [-> | ->]; exact Hm.
Qed.

Lemma build_failure_prefix_witness :
  let w' := snd (build no_make_host [["git"; "fetch"]; ["make"]; ["git"; "gc"]]
                   (Abs ["t"]) demo_world) in
  build no_make_host [["git"; "fetch"]; ["make"]; ["git"; "gc"]] (Abs ["t"])
    demo_world = (Err (OSError "No such file or directory"), w')
  /\ exists n,
       (n <= 3)%nat
       /\ trace w'
          = EvTime 0
              :: map (fun c => EvCall c ["t"])
                   (firstn n [["git"; "fetch"]; ["make"]; ["git"; "gc"]])
  /\ launched (trace w') = [(["git"; "fetch"], ["t"]); (["make"], ["t"])].
Proof.
  intros w'.
  assert (Hb : build no_make_host [["git"; "fetch"]; ["make"]; ["git"; "gc"]]
                 (Abs ["t"]) demo_world
               = (Err (OSError "No such file or directory"), w'))
    by (vm_compute; reflexivity).
  split; [exact Hb |].
  destruct (build_failure_prefix _ _ _ _ _ _ Hb) as (n & Hn & Ht).
  exists n. split; [exact Hn |]. split; [exact Ht |].
  vm_compute. reflexivity.
Defined.

(** ** The record of a run *)

(** The stages of a successful measurement, with the worlds between. *)
Lemma measure_stages h p project commands w results w1 :
  measure h p project commands w = (Ok results, w1) ->
  exists ct wc cb cf cd cs bt wb bb bf bd bs,
    clone h (repo commands) (join p project) w = (Ok (tt, ct), wc)
    /\ statdir h p wc = (Ok ((cb, cf, cd), cs), tick (tick wc))
    /\ build h (cmds commands) (join p project) (tick (tick wc))
       = (Ok (tt, bt), wb)
    /\ statdir h p wb = (Ok ((bb, bf, bd), bs), w1)
    /\ results
       = [(TEST_NAME, VStr project); (TEST_PATH, VStr (path_str p));
          (CLONE_TIME, VNum ct); (CLONE_STAT, VNum cs);
          (CLONE_BYTES, VNum cb); (CLONE_FILES, VNum cf);
          (CLONE_DIRS, VNum cd); (BUILD_TIME, VNum bt);
          (BUILD_STAT, VNum bs); (BUILD_BYTES, VNum bb);
          (BUILD_FILES, VNum bf); (BUILD_DIRS, VNum bd)].
Proof.
  intros H. unfold measure in H.
  apply bind_ok in H as [[[] ct] [wc [Hc H]]].
  apply bind_ok in H as [[[[cb cf] cd] cs] [w3 [Hs1 H]]].
  apply bind_ok in H as [[[] bt] [wb [Hb H]]].
  apply bind_ok in H as [[[[bb bf] bd] bs] [w5 [Hs2 H]]].
  inversion H; subst results w5. clear H.
  pose proof (statdir_world _ _ _ _ _ Hs1) as [_ ->].
  exists ct, wc, cb, cf, cd, cs, bt, wb, bb, bf, bd, bs.
  repeat (split; [eassumption |]). reflexivity.
Qed.

(** The record that a successful run prints lists its keys in the order
    they were set (the build time after the post-clone fields, unlike the
    columns of the results file); its post-clone fields are what [statdir]
    returned for the whole target right after the clone and its post-build
    fields what it returned right after the build; the run has read the
    clock eight times. *)
Theorem run_record h p project output header w w' :
  run_workload h p project output header w = (Ok tt, w') ->
  exists commands ct wc cb cf cd cs bt wb bb bf bd bs w1,
    projects_get PROJECTS project = Some commands
    /\ clone h (repo commands) (join p project) w = (Ok (tt, ct), wc)
    /\ statdir h p wc = (Ok ((cb, cf, cd), cs), tick (tick wc))
    /\ build h (cmds commands) (join p project) (tick (tick wc))
       = (Ok (tt, bt), wb)
    /\ statdir h p wb = (Ok ((bb, bf, bd), bs), w1)
    /\ printed (trace w')
       = (printed (trace w)
            ++ [[("test name", VStr project);
                 ("test path", VStr (path_str p));
                 ("clone time", VNum ct); ("clone stat", VNum cs);
                 ("clone bytes", VNum cb); ("clone files", VNum cf);
                 ("clone dirs", VNum cd); ("build time", VNum bt);
                 ("build stat", VNum bs); ("build bytes", VNum bb);
                 ("build files", VNum bf); ("build dirs", VNum bd)]])%list
    /\ ticks w' = (8 + ticks w)%nat.
Proof.
  intros H.
  destruct (run_ok _ _ _ _ _ _ _ H)
    as (commands & results & w1 & w2 & w3 & Hv & Hm & Hp & Hr & ->).
  pose proof (measure_known_keys _ _ _ _ _ _ _ Hm) as Hk.
  pose proof (persist_inv _ _ _ _ _ _ _ Hk Hp) as (_ & _ & Ht2 & Htr2).
  pose proof (measure_ok _ _ _ _ _ _ _ Hm) as (_ & _ & Ht1 & _).
  pose proof (quietly_cleanups _ _ (quiet_measure _ _ _ _ _ _ _ Hm))
    as [_ Hpr].
  apply rmtree_ok in Hr as (_ & _ & Ht3 & Htr3).
  destruct (measure_stages _ _ _ _ _ _ _ Hm)
    as (ct & wc & cb & cf & cd & cs & bt & wb & bb & bf & bd & bs
        & Hc & Hs1 & Hb & Hs2 & Hres).
  exists commands, ct, wc, cb, cf, cd, cs, bt, wb, bb, bf, bd, bs, w1.
  split; [exact (proj2 (validate_ok _ _ _ _ _ Hv)) |].
  repeat (split; [eassumption |]).
  split.
  - simpl. rewrite printed_app, Htr3, printed_app, Htr2, Hpr, Hres. simpl.
    now rewrite app_nil_r.
  - simpl. now rewrite Ht3, Ht2, Ht1.
Qed.

Lemma run_record_witness :
  let w' := snd (run_workload (demo_host 0) (Abs ["t"]) "redis"
                   (Rel ["results.csv"]) true demo_world) in
  run_workload (demo_host 0) (Abs ["t"]) "redis" (Rel ["results.csv"]) true
    demo_world = (Ok tt, w')
  /\ map (fun d => map fst d) (printed (trace w'))
     = [["test name"; "test path"; "clone time"; "clone stat"; "clone bytes";
         "clone files"; "clone dirs"; "build time"; "build stat";
         "build bytes"; "build files"; "build dirs"]]
  /\ ticks w' = 8%nat.
Proof.
  intros w'.
  assert (Hrun : run_workload (demo_host 0) (Abs ["t"]) "redis"
                   (Rel ["results.csv"]) true demo_world = (Ok tt, w'))
    by (vm_compute; reflexivity).
  split; [exact Hrun |].
  destruct (run_record _ _ _ _ _ _ _ Hrun)
    as (commands & ct & wc & cb & cf & cd & cs & bt & wb & bb & bf & bd & bs
        & w1 & _ & _ & _ & _ & _ & Hpr & Ht).
  split; [rewrite Hpr; reflexivity | exact Ht].
Defined.

(** With a clock that does not run backwards and a file system that
    reports no negative size, every number of the record that a successful
    run prints is non-negative. *)
Theorem run_record_nonneg h p project output header w w' :
  monotone (clock h) ->
  0 <= st_size_dir h ->
  run_workload h p project output header w = (Ok tt, w') ->
  exists results,
    printed (trace w') = (printed (trace w) ++ [results])%list
    /\ forall k z, dict_get results k = Some (VNum z) -> 0 <= z.
Proof.
  intros Hmono Hsz H.
  destruct (run_ok _ _ _ _ _ _ _ H)
    as (commands & results & w1 & w2 & w3 & Hv & Hm & Hp & Hr & ->).
  pose proof (measure_known_keys _ _ _ _ _ _ _ Hm) as Hk.
  pose proof (persist_inv _ _ _ _ _ _ _ Hk Hp) as (_ & _ & _ & Htr2).
  pose proof (quietly_cleanups _ _ (quiet_measure _ _ _ _ _ _ _ Hm))
    as [_ Hpr].
  apply rmtree_ok in Hr as (_ & _ & _ & Htr3).
  exists results. split.
  { simpl. rewrite printed_app, Htr3, printed_app, Htr2, Hpr. simpl.
    now rewrite app_nil_r. }
  destruct (measure_stages _ _ _ _ _ _ _ Hm)
    as (ct & wc & cb & cf & cd & cs & bt & wb & bb & bf & bd & bs
        & Hc & Hs1 & Hb & Hs2 & Hres).
  assert (Hstep : forall n, clock h n <= clock h (S n)).
  { intros n. apply Hmono. lia. }
  pose proof (statdir_ok_nonneg _ _ _ _ _ _ _ _ Hsz Hs1) as (Hcb & Hcf & Hcd).
  pose proof (statdir_ok_nonneg _ _ _ _ _ _ _ _ Hsz Hs2) as (Hbb & Hbf & Hbd).
  apply clone_ok in Hc as (Hct & _).
  apply statdir_world in Hs1 as (Hcs & _).
  apply build_inv in Hb as (Hbt & _).
  apply statdir_world in Hs2 as (Hbs & _).
  pose proof (Hstep (ticks w)). pose proof (Hstep (ticks wc)).
  pose proof (Hstep (ticks (tick (tick wc)))). pose proof (Hstep (ticks wb)).
  intros k z Hget. rewrite Hres in Hget. simpl in Hget.
  repeat match type of Hget with
         | (if ?c then _ else _) = _ =>
             destruct c; [inversion Hget; subst; lia |]
         end.
  discriminate.
Qed.

Lemma run_record_nonneg_witness :
  let w' := snd (run_workload (demo_host 0) (Abs ["t"]) "redis"
                   (Rel ["results.csv"]) true demo_world) in
  run_workload (demo_host 0) (Abs ["t"]) "redis" (Rel ["results.csv"]) true
    demo_world = (Ok tt, w')
  /\ exists results,
       printed (trace w') = [results]
       /\ forall k z, dict_get results k = Some (VNum z) -> 0 <= z.
Proof.
  intros w'.
  assert (Hrun : run_workload (demo_host 0) (Abs ["t"]) "redis"
                   (Rel ["results.csv"]) true demo_world = (Ok tt, w'))
    by (vm_compute; reflexivity).
  assert (Hsz : 0 <= st_size_dir (demo_host 0)) by (simpl; lia).
  split; [exact Hrun |].
  exact (run_record_nonneg _ _ _ _ _ _ _ (demo_clock_monotone 0) Hsz Hrun).
Defined.

(** ** Runs that fail *)






(** ** The main program *)

(** The main program never returns normally.  It ends by [SystemExit]
    with status 0 and no message when [run_workload] returned (the
    [parser.exit(0)] inside the [try] block is not caught by
    [except Exception]), and with status 2 and the text of the exception
    when [run_workload] raised an exception of class [Exception]; an
    exception that is not of that class, such as [KeyboardInterrupt],
    is not caught and leaves the program.  In every case the world is the
    one [run_workload] left. *)
Theorem main_exit_status h args w :
  let run := run_workload h (ns_path args) (ns_project args)
               (ns_output args) (ns_header args) w in
  main h args w
  = (inr (match fst run with
          | Ok _ => SystemExit 0 None
          | Err e =>
              if is_Exception e then SystemExit 2 (Some (str_exn e))
              else Raised e
          end), snd run)
  /\ (forall u, fst (main h args w) <> inl u)
  /\ (forall e,
         fst (main h args w) = inr (Raised e) ->
         is_Exception e = false /\ fst run = Err e).
Proof.
  intros run. subst run.
  unfold main, try_except_Exception, and_then, lift, parser_exit,
    parser_error.
  destruct (run_workload h (ns_path args) (ns_project args)
              (ns_output args) (ns_header args) w) as [[[] | e] w1]; simpl.
  - split; [reflexivity |]. split; intros; discriminate.
  - destruct (is_Exception e) eqn:E; simpl.
    + split; [reflexivity |]. split; intros; discriminate.
    + split; [reflexivity |]. split; [intros; discriminate |].
      intros e' H. inversion H; subst. auto.
Qed.

Lemma main_exit_status_witness :
  fst (main (demo_host 0)
         (mkNamespace (Abs ["t"]) (Rel ["results.csv"]) "redis" true)
         demo_world) = inr (SystemExit 0 None)
  /\ fst (main no_make_host
            (mkNamespace (Abs ["t"]) (Rel ["results.csv"]) "redis" true)
            demo_world)
     = inr (SystemExit 2 (Some "No such file or directory"))
  /\ fst (main interrupted_host
            (mkNamespace (Abs ["t"]) (Rel ["results.csv"]) "redis" true)
            demo_world)
     = inr (Raised KeyboardInterrupt).
Proof.
  destruct (main_exit_status (demo_host 0)
              (mkNamespace (Abs ["t"]) (Rel ["results.csv"]) "redis" true)
              demo_world) as [H1 _].
  destruct (main_exit_status no_make_host
              (mkNamespace (Abs ["t"]) (Rel ["results.csv"]) "redis" true)
              demo_world) as [H2 _].
  destruct (main_exit_status interrupted_host
              (mkNamespace (Abs ["t"]) (Rel ["results.csv"]) "redis" true)
              demo_world) as [H3 _].
  split; [| split].
  - rewrite H1. vm_compute. reflexivity.
  - rewrite H2. vm_compute. reflexivity.
  - rewrite H3. vm_compute. reflexivity.
Defined.


